(** * Tunnel and relay subsystem of the tKeel CLI (package [kubernetes])

    A shallow embedding of the port-forward session ([PortForward], [Init],
    [Stop], [GetPortforward]) and of the two relays built on it
    ([InvokeByPortForward], [WebsocketByPortForward]), with the properties
    the specification states about them.

    Go values are modelled as follows: [int] and [uint16] as [Z], [string] as
    [string] (a byte sequence), [[]byte] as [list Byte.byte], a pointer
    [*PortForward] as an optional address into a heap of sessions, a channel
    that is only ever closed as an open/closed flag.  The collaborators that
    live outside the sources (cluster client, workload resolver, SPDY
    forwarder, HTTP and websocket transports) are the fields of [Env]: what
    each call returns is chosen by the environment, what the program does
    with it is the code below.  Interrupt handling ([signal.Notify] and the
    goroutine that calls [os.Exit]) terminates the process and is not part
    of the model. *)

From Stdlib Require Import ZArith List String Ascii DecimalString Lia.
From stdpp Require Import base gmap strings list.

Open Scope Z_scope.

(** ** Errors

    The three dynamic error types the program creates: [errors.New] and
    [fmt.Errorf] without [%w] give an [errorString]; [fmt.Errorf] with [%w]
    gives a [wrapError] holding the rendered text and the operand;
    [errors.Wrap] of [github.com/pkg/errors] gives a [withMessage]. *)

Inductive error : Type :=
| errorString (s : string)
| wrapError (msg : string) (err : error)
| withMessage (cause : error) (msg : string).

(** [err.Error()] *)
Fixpoint Error (e : error) : string :=
  match e with
  | errorString s => s
  | wrapError msg _ => msg
  | withMessage cause msg => msg +:+ ": " +:+ Error cause
  end.

(** [errors.Unwrap(err)] and [errors.Cause]'s single step *)
Definition Unwrap (e : error) : option error :=
  match e with
  | errorString _ => None
  | wrapError _ err => Some err
  | withMessage cause _ => Some cause
  end.

(** A Go call that returns [(T, error)] with exactly one of them set. *)
Definition result (A : Type) : Type := A + error.

(** ** Package fmt *)

Module fmt.

(** Operands of the formatting calls of this program. *)
Inductive arg : Type :=
| AString (s : string)
| AInt (n : Z)
| AError (e : error).

(** Base-10 rendering of an [int], with a leading minus sign below zero. *)
Definition itoa (n : Z) : string := NilZero.string_of_int (Z.to_int n).

(** The operand under [%v]. *)
Definition printV (a : arg) : string :=
  match a with
  | AString s => s
  | AInt n => itoa n
  | AError e => Error e
  end.

Definition typeName (a : arg) : string :=
  match a with
  | AString _ => "string"
  | AInt _ => "int"
  | AError _ => "error"
  end.

(** [%!verb(type=value)], what fmt prints for a verb the operand does not
    support.  For an operand of error type Go prints the dynamic type and
    the struct fields; the program never formats an error with such a
    verb, and the model writes the type as [error]. *)
Definition badVerb (verb : ascii) (a : arg) : string :=
  "%!" +:+ String verb "(" +:+ typeName a +:+ "=" +:+ printV a +:+ ")".

(** One operand under one verb.  [wrapErrs] is set by [Errorf] only and
    makes [%w] print an error operand as [%v] does. *)
Definition printArg (wrapErrs : bool) (verb : ascii) (a : arg) : string :=
  if Ascii.eqb verb "v" then printV a
  else if Ascii.eqb verb "s" then
    match a with
    | AString s => s
    | AError e => Error e
    | AInt _ => badVerb verb a
    end
  else if Ascii.eqb verb "d" then
    match a with
    | AInt n => itoa n
    | _ => badVerb verb a
    end
  else if Ascii.eqb verb "w" then
    match a with
    | AError e => if wrapErrs then Error e else badVerb verb a
    | _ => badVerb verb a
    end
  else badVerb verb a.

(** [%!(EXTRA type=value, ...)] for operands the format did not use. *)
Fixpoint extraList (args : list arg) : string :=
  match args with
  | [] => ""
  | [a] => typeName a +:+ "=" +:+ printV a
  | a :: rest => typeName a +:+ "=" +:+ printV a +:+ ", " +:+ extraList rest
  end.

Definition extra (args : list arg) : string :=
  match args with
  | [] => ""
  | _ => "%!(EXTRA " +:+ extraList args +:+ ")"
  end.

(** The formatting loop: the rendered text and the first error operand
    met under [%w]. *)
Fixpoint doPrintf (wrapErrs : bool) (format : string) (args : list arg)
  : string * option error :=
  match format with
  | EmptyString => (extra args, None)
  | String c rest =>
      if Ascii.eqb c "%" then
        match rest with
        | EmptyString => ("%!(NOVERB)" +:+ extra args, None)
        | String verb rest' =>
            if Ascii.eqb verb "%" then
              let '(s, w) := doPrintf wrapErrs rest' args in
              (String "%" s, w)
            else
              match args with
              | [] =>
                  let '(s, w) := doPrintf wrapErrs rest' [] in
                  ("%!" +:+ String verb "(MISSING)" +:+ s, w)
              | a :: args' =>
                  let '(s, w) := doPrintf wrapErrs rest' args' in
                  let here :=
                    match a with
                    | AError e =>
                        if wrapErrs && Ascii.eqb verb "w" then Some e else None
                    | _ => None
                    end in
                  (printArg wrapErrs verb a +:+ s,
                   match here with Some e => Some e | None => w end)
              end
        end
      else
        let '(s, w) := doPrintf wrapErrs rest args in
        (String c s, w)
  end.

Definition Sprintf (format : string) (args : list arg) : string :=
  fst (doPrintf false format args).

Definition Errorf (format : string) (args : list arg) : error :=
  match doPrintf true format args with
  | (s, None) => errorString s
  | (s, Some e) => wrapError s e
  end.

End fmt.

Import fmt.

(** [errors.Wrap(err, message)]; the program only wraps non-nil errors. *)
Definition Wrap (err : error) (message : string) : error :=
  withMessage err message.

(** [strings.Contains(s, substr)] *)
Fixpoint Contains (s substr : string) : bool :=
  String.prefix substr s ||
  match s with
  | EmptyString => false
  | String _ s' => Contains s' substr
  end.


(** ** Data model *)

(** [*rest.Config] and the typed client built from it: opaque handles. *)
Inductive restConfig : Type := RestConfig (host : string).
Inductive clientset : Type := Clientset (host : string).

(** [core_v1.PodPhase] is a string type; [core_v1.PodRunning]. *)
Definition PodPhase : Type := string.
Definition PodRunning : PodPhase := "Running".

(** [AppPod], with the fields the tunnel and the relays read.  [Phase] is
    [app.pod.Status.Phase]. *)
Record AppPod : Type := {
  AppID : string;
  Namespace : string;
  PodName : string;
  HTTPPort : Z;
  AppPort : Z;
  Phase : PodPhase
}.

(** The request URL [client.CoreV1().RESTClient().Post().Resource(..)
    .Namespace(..).Name(..).SubResource(..).URL()], kept as its parts. *)
Record podURL : Type := {
  urlResource : string;
  urlNamespace : string;
  urlName : string;
  urlSubResource : string
}.

(** A channel of [struct{}] on which nothing is ever sent: all that can
    happen to it is [close]. *)
Inductive chan : Type := chOpen | chClosed.

(** [PortForward] *)
Record PortForward : Type := {
  Config : restConfig;
  Method : string;
  URL : podURL;
  Host : string;
  LocalPort : Z;
  RemotePort : Z;
  EmitLogs : bool;
  App : option AppPod;
  StopCh : chan;
  ReadyCh : chan
}.

Definition setPorts (l r : Z) (pf : PortForward) : PortForward :=
  {| Config := Config pf; Method := Method pf; URL := URL pf; Host := Host pf;
     LocalPort := l; RemotePort := r; EmitLogs := EmitLogs pf; App := App pf;
     StopCh := StopCh pf; ReadyCh := ReadyCh pf |}.

Definition setApp (a : option AppPod) (pf : PortForward) : PortForward :=
  {| Config := Config pf; Method := Method pf; URL := URL pf; Host := Host pf;
     LocalPort := LocalPort pf; RemotePort := RemotePort pf;
     EmitLogs := EmitLogs pf; App := a;
     StopCh := StopCh pf; ReadyCh := ReadyCh pf |}.

Definition setStopCh (c : chan) (pf : PortForward) : PortForward :=
  {| Config := Config pf; Method := Method pf; URL := URL pf; Host := Host pf;
     LocalPort := LocalPort pf; RemotePort := RemotePort pf;
     EmitLogs := EmitLogs pf; App := App pf;
     StopCh := c; ReadyCh := ReadyCh pf |}.

Definition setReadyCh (c : chan) (pf : PortForward) : PortForward :=
  {| Config := Config pf; Method := Method pf; URL := URL pf; Host := Host pf;
     LocalPort := LocalPort pf; RemotePort := RemotePort pf;
     EmitLogs := EmitLogs pf; App := App pf;
     StopCh := StopCh pf; ReadyCh := c |}.

(** [*PortForward]: [None] is [nil]. *)
Definition ptr : Type := option nat.

(** [portforward.ForwardedPort]; both fields are [uint16]. *)
Record ForwardedPort : Type := { Local : Z; Remote : Z }.

(** [*http.Response]: the status and what reading the body to its end
    gives. *)
Record Response : Type := {
  StatusCode : Z;
  Body : result (list Byte.byte)
}.

(** Frame kinds of [github.com/gorilla/websocket]. *)
Definition TextMessage : Z := 1.
Definition BinaryMessage : Z := 2.
Definition CloseMessage : Z := 8.
Definition PingMessage : Z := 9.
Definition PongMessage : Z := 10.

(** What [fmt.Println] is handed. *)
Inductive value : Type :=
| VString (s : string)
| VBytes (b : list Byte.byte)
| VError (e : error).

(** Observable actions, in the order the program performs them. *)
Inductive event : Type :=
| EvForwardPorts (addresses ports : list string)
    (* the forwarding loop is started: it dials the pod and binds the
       local listener *)
| EvCloseStopCh (p : option nat)                         (* close(pf.StopCh) *)
| EvPrintln (v : value)                           (* one line on stdout *)
| EvHTTPDo (verb url : string) (body : list Byte.byte) (contentType : string)
| EvBodyClose                                     (* r.Body.Close() *)
| EvDial (url : string)                           (* dialer.Dial(url, nil) *)
| EvWriteMessage (messageType : Z) (data : list Byte.byte)
| EvReadMessage (messageType : Z) (data : list Byte.byte)
    (* a frame handed over by connect.ReadMessage() *)
| EvConnClose.                                    (* connect.Close() *)

(** How the background forwarding loop resolves the [select] of [Init]. *)
Inductive forwarding : Type :=
| ReadyFirst (getPorts : result (list ForwardedPort))
    (* the forwarder closes the ready channel before any failure is
       delivered; [getPorts] is what [fw.GetPorts()] then returns *)
| FailureFirst (err : error)
    (* [fw.ForwardPorts()] returns [err] and the ready channel has not been
       closed *)
| NeitherEver.
    (* the forwarder signals neither *)

(** The collaborators.  Each field is the outcome of the call named in its
    comment for the given arguments. *)
Record Env : Type := {
  RuntimeAPIVersion : string;                      (* api.RuntimeAPIVersion *)
  GetKubeConfigClient : result (restConfig * clientset);
  Client : result clientset;                       (* Client() *)
  GetAppPod : clientset -> string -> result AppPod;
  NewForConfig : restConfig -> option error;       (* k8s.NewForConfig *)
  RoundTripperFor : restConfig -> option error;    (* spdy.RoundTripperFor *)
  NewOnAddresses : list string -> list string -> option error;
  ForwardPorts : list string -> list string -> forwarding;
  AppRequest : AppPod -> string -> string -> list Byte.byte -> option error;
                                                   (* app.Request(verb, method, data) *)
  Raw : AppPod -> string -> string -> list Byte.byte -> result (list Byte.byte);
                                                   (* res.Do(ctx).Raw() *)
  NewRequest : string -> string -> option error;   (* http.NewRequest(verb, url, _) *)
  Do : string -> string -> list Byte.byte -> result Response;
                                                   (* httpc.Do(req) *)
  Dial : string -> option error;                   (* dialer.Dial(url, nil) *)
  WriteMessage : Z -> list Byte.byte -> option error;
  ReadMessage : nat -> result (Z * list Byte.byte)
    (* the outcome of the n-th call of connect.ReadMessage(), n from 0 *)
}.

(** ** Program state and the execution monad *)

Record world : Type := {
  heap : gmap nat PortForward;     (* the sessions allocated so far *)
  next : nat;                      (* the next free address *)
  log : list event                 (* what has been done, oldest first *)
}.

Definition emptyWorld : world := {| heap := ∅; next := 0%nat; log := [] |}.

Inductive outcome (A : Type) : Type :=
| Returns (a : A) (w : world)      (* the call returned [a] *)
| Panics (msg : string) (w : world)  (* a run-time panic unwinds the stack *)
| Blocks (w : world)               (* parked for ever on a channel operation *)
| Running (w : world).             (* still in its loop when the fuel ran out *)

Arguments Returns {A} a w.
Arguments Panics {A} msg w.
Arguments Blocks {A} w.
Arguments Running {A} w.

Definition M (A : Type) : Type := world -> outcome A.

Definition ret {A} (a : A) : M A := fun w => Returns a w.

Definition bind {A B} (m : M A) (k : A -> M B) : M B :=
  fun w =>
    match m w with
    | Returns a w' => k a w'
    | Panics msg w' => Panics msg w'
    | Blocks w' => Blocks w'
    | Running w' => Running w'
    end.

Notation "'do' x <- m ; k" := (bind m (fun x => k))
  (at level 10, x name, m at level 100, k at level 200).
Notation "'do' ' pat <- m ; k" :=
  (bind m (fun x => match x with pat => k end))
  (at level 10, pat pattern, m at level 100, k at level 200).
Notation "'run' m ; k" := (bind m (fun _ => k))
  (at level 10, m at level 100, k at level 200).

Definition panic {A} (msg : string) : M A := fun w => Panics msg w.
Definition block {A} : M A := fun w => Blocks w.
Definition running {A} : M A := fun w => Running w.

Definition logged (evs : list event) (w : world) : world :=
  {| heap := heap w; next := next w; log := log w ++ evs |}.

Definition stored (a : nat) (pf : PortForward) (w : world) : world :=
  {| heap := <[a := pf]> (heap w); next := next w; log := log w |}.

Definition emit (e : event) : M unit :=
  fun w => Returns tt (logged [e] w).

(** [new(PortForward)] initialised to [pf]. *)
Definition allocated (pf : PortForward) (w : world) : world :=
  {| heap := <[next w := pf]> (heap w); next := S (next w); log := log w |}.

Definition alloc (pf : PortForward) : M ptr :=
  fun w => Returns (Some (next w)) (allocated pf w).

(** Dereference of [p]. *)
Definition load (p : ptr) : M PortForward :=
  fun w =>
    match p with
    | None => Panics "invalid memory address or nil pointer dereference" w
    | Some a =>
        match heap w !! a with
        | Some pf => Returns pf w
        | None => Panics "invalid memory address or nil pointer dereference" w
        end
    end.

(** Assignment through the pointer: the session at [p] becomes [f] of it. *)
Definition update (p : ptr) (f : PortForward -> PortForward) : M unit :=
  do pf <- load p;
  fun w =>
    match p with
    | Some a => Returns tt (stored a (f pf) w)
    | None => Returns tt w
    end.

(** [defer cleanup()] followed by [body]: [cleanup] runs when [body]
    returns and when it panics, not while it is parked or looping. *)
Definition defer {A} (cleanup : M unit) (body : M A) : M A :=
  fun w =>
    match body w with
    | Returns a w' => (run cleanup; ret a) w'
    | Panics msg w' => (run cleanup; panic msg) w'
    | Blocks w' => Blocks w'
    | Running w' => Running w'
    end.

(** [fmt.Println(v)] *)
Definition Println (v : value) : M unit := emit (EvPrintln v).

(** [len(b)] *)
Definition len {A} (b : list A) : Z := Z.of_nat (length b).

(** ** The tunnel session *)

Section Program.

Variable E : Env.

(** The struct literal of [NewPortForward]: [StopCh] is made with room
    for one element, [ReadyCh] with none, and both start open. *)
Definition newSession (config : restConfig) (namespace podName : string)
    (host : string) (localPort remotePort : Z) (emitLogs : bool)
  : PortForward :=
  let req := {| urlResource := "pods"; urlNamespace := namespace;
                urlName := podName; urlSubResource := "portforward" |} in
  {| Config := config; Method := "POST"; URL := req;
     Host := host; LocalPort := localPort;
     RemotePort := remotePort; EmitLogs := emitLogs;
     App := None; StopCh := chOpen; ReadyCh := chOpen |}.

(** [NewPortForward]: a fresh session with both channels open, or the
    client error. *)
Definition NewPortForward (config : restConfig) (namespace podName : string)
    (host : string) (localPort remotePort : Z) (emitLogs : bool)
  : M (ptr * option error) :=
  match NewForConfig E config with
  | Some err => ret (None, Some (Errorf "error get k8s client: %w" [AError err]))
  | None =>
      do p <- alloc (newSession config namespace podName host
                       localPort remotePort emitLogs);
      ret (p, None)
  end.

(** The [ports] slice [Init] hands to the forwarder. *)
Definition portSpec (s : PortForward) : list string :=
  [Sprintf "%d:%d" [AInt (LocalPort s); AInt (RemotePort s)]].

(** [(pf *PortForward) Init()].  The streams chosen by [pf.EmitLogs] only
    receive the forwarder's diagnostics and are left out.  After the
    forwarder is started the [select] waits for the ready channel or for
    the failure sent by the background goroutine. *)
Definition Init (pf : ptr) : M (option error) :=
  do s <- load pf;
  match RoundTripperFor E (Config s) with
  | Some err =>
      ret (Some (Errorf "error creat spdy round tripper: %w" [AError err]))
  | None =>
      let ports := portSpec s in
      match NewOnAddresses E [Host s] ports with
      | Some err =>
          ret (Some (Errorf "error creat portforward: %w" [AError err]))
      | None =>
          run emit (EvForwardPorts [Host s] ports);
          match ForwardPorts E [Host s] ports with
          | ReadyFirst getPorts =>
              (* the forwarder has closed pf.ReadyCh *)
              run update pf (setReadyCh chClosed);
              run match getPorts with
                  | inl [] => panic "index out of range [0] with length 0"
                  | inl (p0 :: _) => update pf (setPorts (Local p0) (Remote p0))
                  | inr _ => ret tt
                  end;
              ret None
          | FailureFirst err => ret (Some err)
          | NeitherEver => block
          end
      end
  end.

(** [(pf *PortForward) Stop()]: [close(pf.StopCh)]. *)
Definition Stop (pf : ptr) : M unit :=
  do s <- load pf;
  match StopCh s with
  | chClosed => panic "close of closed channel"
  | chOpen =>
      run update pf (setStopCh chClosed);
      emit (EvCloseStopCh pf)
  end.

(** [(pf *PortForward) GetStop()] *)
Definition GetStop (pf : ptr) : M chan :=
  do s <- load pf; ret (StopCh s).

Definition PortForwardConfigureOption : Type := ptr -> AppPod -> M (option error).

Definition WithHTTPPort : PortForwardConfigureOption :=
  fun pf app =>
    do s <- load pf;
    run update pf (setPorts (LocalPort s) (HTTPPort app));
    ret None.

Definition WithAppPort : PortForwardConfigureOption :=
  fun pf app =>
    do s <- load pf;
    run update pf (setPorts (LocalPort s) (AppPort app));
    ret None.

Definition WithAppPod : PortForwardConfigureOption :=
  fun pf app =>
    run update pf (setApp (Some app));
    ret None.

(** The loop over [options] of [GetPortforward] and its final return. *)
Fixpoint applyOptions (options : list PortForwardConfigureOption)
    (portForward : ptr) (app : AppPod) : M (ptr * option error) :=
  match options with
  | [] => ret (portForward, None)
  | o :: rest =>
      do r <- o portForward app;
      match r with
      | Some err =>
          ret (None, Some (Errorf "set portforward options failed: %w" [AError err]))
      | None => applyOptions rest portForward app
      end
  end.

Definition GetPortforward (appName : string)
    (options : list PortForwardConfigureOption) : M (ptr * option error) :=
  match GetKubeConfigClient E with
  | inr err => ret (None, Some (Errorf "get kube config error: %w" [AError err]))
  | inl (config, client) =>
      match GetAppPod E client appName with
      | inr err => ret (None, Some err)
      | inl app =>
          do '(portForward, err) <-
            NewPortForward config (Namespace app) (PodName app)
              "127.0.0.1" 0 (HTTPPort app) false;
          match err with
          | Some err =>
              ret (None, Some (Errorf "new portforward failed: %w" [AError err]))
          | None => applyOptions options portForward app
          end
      end
  end.

Definition GetPodPortForward (name namespace : string) (port : Z)
  : M (ptr * option error) :=
  match GetKubeConfigClient E with
  | inr err => ret (None, Some (Errorf "get kube config error: %w" [AError err]))
  | inl (config, _) =>
      do '(portForward, err) <-
        NewPortForward config namespace name "127.0.0.1" 0 port false;
      match err with
      | Some err =>
          ret (None, Some (Errorf "new portforward failed: %w" [AError err]))
      | None => ret (portForward, None)
      end
  end.

(** ** The request relay *)

(** [invoke]: the call through the cluster's REST client. *)
Definition invoke (app : AppPod) (method : string) (data : list Byte.byte)
    (verb : string) : string * option error :=
  match AppRequest E app verb method data with
  | Some err => ("", Some (Errorf "error get request: %w" [AError err]))
  | None =>
      match Raw E app verb method data with
      | inr err => ("", Some (Errorf "error get raw: %w" [AError err]))
      | inl rawbody =>
          if 0 <? len rawbody then (string_of_list_byte rawbody, None)
          else ("", None)
      end
  end.

Definition Invoke (pluginID method : string) (data : list Byte.byte)
    (verb : string) : string * option error :=
  match Client E with
  | inr err => ("", Some err)
  | inl client =>
      match GetAppPod E client pluginID with
      | inr err => ("", Some err)
      | inl app => invoke app method data verb
      end
  end.

(** [makeEndpoint] and [makeWsEndpoint] only read [pf.LocalPort]: they
    take the session their pointer argument refers to, and the caller
    dereferences it. *)
Definition makeEndpoint (app : AppPod) (pf : PortForward) (method : string)
  : string :=
  Sprintf "http://127.0.0.1:%s/v%s/invoke/%s/method/%s"
    [AString (Sprintf "%v" [AInt (LocalPort pf)]);
     AString (RuntimeAPIVersion E); AString (AppID app); AString method].

(** not use dapr api. *)
Definition makeWsEndpoint (pf : PortForward) (method : string) : string :=
  Sprintf "ws://127.0.0.1:%s/%s"
    [AString (Sprintf "%v" [AInt (LocalPort pf)]); AString method].

Definition handleResponse (response : Response) : string * option error :=
  match Body response with
  | inr err => ("", Some (Errorf "error read http response: %w" [AError err]))
  | inl rb =>
      if 0 <? len rb then (string_of_list_byte rb, None)
      else ("", None)
  end.

Definition InvokeByPortForward (pluginID method : string)
    (data : list Byte.byte) (verb : string) : M (string * option error) :=
  match GetKubeConfigClient E with
  | inr err => ret ("", Some (Errorf "get kube config error: %w" [AError err]))
  | inl (config, client) =>
      match GetAppPod E client pluginID with
      | inr err => ret ("", Some err)
      | inl app =>
          do '(portForward, err) <-
            NewPortForward config (Namespace app) (PodName app)
              "127.0.0.1" 0 (HTTPPort app) false;
          match err with
          | Some err => ret ("", Some err)
          | None =>
              (* initialize port forwarding. *)
              do err <- Init portForward;
              match err with
              | None =>
                  do s <- load portForward;
                  let url := makeEndpoint app s method in
                  run Println (VString url);
                  match NewRequest E verb url with
                  | Some err =>
                      ret ("", Some (Errorf "error creat http request: %w" [AError err]))
                  | None =>
                      run emit (EvHTTPDo verb url data "application/json");
                      match Do E verb url data with
                      | inr err =>
                          ret ("", Some (Errorf "error do http request: %w" [AError err]))
                      | inl r =>
                          defer (emit EvBodyClose) (ret (handleResponse r))
                      end
                  end
              | Some _ =>
                  run Stop portForward;
                  ret ("", None)
              end
          end
      end
  end.

(** ** The stream relay *)

(** get portforward. *)
Definition getPortforward (pluginID : string) : M (ptr * option error) :=
  match GetKubeConfigClient E with
  | inr err => ret (None, Some (Errorf "get kube config error: %w" [AError err]))
  | inl (config, client) =>
      match GetAppPod E client pluginID with
      | inr err => ret (None, Some err)
      | inl app =>
          if negb (String.eqb (Phase app) PodRunning) then
            ret (None, Some (Errorf "no running pods found for %s" [AString pluginID]))
          else
            NewPortForward config (Namespace app) (PodName app)
              "127.0.0.1" 0 (AppPort app) false
      end
  end.

(** The [for] loop of [WebsocketByPortForward]; [n] counts the reads done
    so far, [fuel] bounds the reads still allowed. *)
Fixpoint readLoop (fuel : nat) (n : nat) : M (string * option error) :=
  match fuel with
  | O => running
  | S fuel' =>
      match ReadMessage E n with
      | inr err => ret ("", Some (Wrap err "websocket read error"))
      | inl (messageType, messageData) =>
          run emit (EvReadMessage messageType messageData);
          run (if messageType =? TextMessage then
                 Println (VString (string_of_list_byte messageData))
               else if messageType =? BinaryMessage then
                 Println (VBytes messageData)
               else if messageType =? CloseMessage then ret tt
               else if messageType =? PingMessage then ret tt
               else if messageType =? PongMessage then ret tt
               else ret tt);
          readLoop fuel' (S n)
      end
  end.

(** websocket request to the k8s pod. *)
Definition WebsocketByPortForward (fuel : nat) (pluginID method : string)
    (data : list Byte.byte) : M (string * option error) :=
  do '(portForward, err) <- getPortforward pluginID;
  match err with
  | Some err => ret ("", Some err)
  | None =>
      (* initialize port forwarding *)
      do err <- Init portForward;
      match err with
      | None =>
          defer (Stop portForward) (
            do s <- load portForward;
            let url := makeWsEndpoint s method in
            run Println (VString url);
            run emit (EvDial url);
            match Dial E url with
            | Some err =>
                run Println (VError err);
                ret ("", Some (Wrap err "connect error"))
            | None =>
                defer (emit EvBodyClose) (
                defer (emit EvConnClose) (
                  run emit (EvWriteMessage TextMessage data);
                  match WriteMessage E TextMessage data with
                  | Some err =>
                      run Println (VError err);
                      ret ("", Some (Wrap err "websocket write error"))
                  | None => readLoop fuel 0
                  end))
            end)
      | Some _ => ret ("", None)
      end
  end.

End Program.

(** [Init] gets as far as its [select]: the round tripper and the forwarder
    were built. *)
Definition reachesSelect (E : Env) (s : PortForward) : Prop :=
  RoundTripperFor E (Config s) = None
  /\ NewOnAddresses E [Host s] (portSpec s) = None.

(** An execution of [WebsocketByPortForward] from [w] that gets its stream
    connection: the pod resolves and is running, the session is made,
    [Init] returns nil and leaves the world [w2] with the session [s2], and
    the dial succeeds. *)
Definition connects (E : Env) (pluginID method : string) (w w2 : world)
    (s2 : PortForward) : Prop :=
  exists config client app,
    GetKubeConfigClient E = inl (config, client)
    /\ GetAppPod E client pluginID = inl app
    /\ Phase app = PodRunning
    /\ NewForConfig E config = None
    /\ Init E (Some (next w))
         (allocated (newSession config (Namespace app) (PodName app)
                       "127.0.0.1" 0 (AppPort app) false) w)
       = Returns None w2
    /\ heap w2 !! next w = Some s2
    /\ Dial E (makeWsEndpoint s2 method) = None.

(** ** The workload resolver *)

(** Modelled from the spec: the workload resolver [GetAppPod] (the
    specification's [ResolvePod]) is not among the sources.  It maps an
    identifier to the pod that carries it as app id, and a failed resolution
    is a [ResolutionError] that contains the identifier. *)
Definition resolvePod (pods : list AppPod) (_ : clientset) (identifier : string)
  : result AppPod :=
  match List.find (fun a => String.eqb (AppID a) identifier) pods with
  | Some a => inl a
  | None => inr (errorString ("ResolutionError: " +:+ identifier))
  end.

(** Modelled from the spec: the failure contract of the resolver, which
    every resolver meets that reports the identifier it could not resolve. *)
Definition namesIdentifier (E : Env) : Prop :=
  forall client identifier err,
    GetAppPod E client identifier = inr err ->
    Contains (Error err) identifier = true.

(** ** Reading the log and the outcome *)

Definition worldOf {A} (o : outcome A) : world :=
  match o with
  | Returns _ w => w
  | Panics _ w => w
  | Blocks w => w
  | Running w => w
  end.

Definition returned {A} (o : outcome A) : option A :=
  match o with
  | Returns a _ => Some a
  | _ => None
  end.

(** The lines printed on stdout. *)
Definition stdout (evs : list event) : list value :=
  omap (fun e => match e with EvPrintln v => Some v | _ => None end) evs.

(** The frames written to the stream. *)
Definition written (evs : list event) : list (Z * list Byte.byte) :=
  omap (fun e => match e with EvWriteMessage t d => Some (t, d) | _ => None end) evs.

(** The frames read from the stream. *)
Definition received (evs : list event) : list (Z * list Byte.byte) :=
  omap (fun e => match e with EvReadMessage t d => Some (t, d) | _ => None end) evs.

(** The sessions whose stop channel was closed. *)
Definition stopped (evs : list event) : list ptr :=
  omap (fun e => match e with EvCloseStopCh p => Some p | _ => None end) evs.

(** The forwarding loops started. *)
Definition forwarded (evs : list event) : list (list string * list string) :=
  omap (fun e => match e with EvForwardPorts a p => Some (a, p) | _ => None end) evs.

(** The classification of inbound frames in the specification's words: a
    text frame is surfaced as a string, a binary frame as raw bytes, and
    anything else is not surfaced. *)
Definition surfaced (frame : Z * list Byte.byte) : option value :=
  let '(kind, payload) := frame in
  if kind =? TextMessage then Some (VString (string_of_list_byte payload))
  else if kind =? BinaryMessage then Some (VBytes payload)
  else None.

(** What one delivered frame adds to the log under that classification:
    the frame is observed, and its payload is printed when it is surfaced. *)
Definition frameEvents (frame : Z * list Byte.byte) : list event :=
  EvReadMessage (fst frame) (snd frame)
  :: match surfaced frame with
     | Some v => [EvPrintln v]
     | None => []
     end.

(** The frames delivered by the reads [n], [n+1], ... among the first
    [count], up to the first read that fails. *)
Fixpoint delivered (E : Env) (count n : nat) : list (Z * list Byte.byte) :=
  match count with
  | O => []
  | S count' =>
      match ReadMessage E n with
      | inl frame => frame :: delivered E count' (S n)
      | inr _ => []
      end
  end.

(** The error of the first failing read among those, if there is one. *)
Fixpoint firstError (E : Env) (count n : nat) : option error :=
  match count with
  | O => None
  | S count' =>
      match ReadMessage E n with
      | inl _ => firstError E count' (S n)
      | inr err => Some err
      end
  end.

(** ** Scenarios *)

Module Scenario.

Definition corePod : AppPod :=
  {| AppID := "core"; Namespace := "tkeel-system"; PodName := "core-5f7b9";
     HTTPPort := 3500; AppPort := 6789; Phase := "Running" |}.

Definition pendingPod : AppPod :=
  {| AppID := "rudder"; Namespace := "tkeel-system"; PodName := "rudder-84c6d";
     HTTPPort := 3500; AppPort := 31234; Phase := "Pending" |}.

Definition payload : list Byte.byte := list_byte_of_string "running".

(** One text frame, one binary frame, one pong, then the peer closes. *)
Definition echo (n : nat) : result (Z * list Byte.byte) :=
  match n with
  | 0%nat => inl (TextMessage, list_byte_of_string "hello")
  | 1%nat => inl (BinaryMessage, [Byte.x01; Byte.x02])
  | 2%nat => inl (PongMessage, [])
  | _ => inr (errorString "websocket: close 1000 (normal)")
  end.

(** A cluster with the two pods above, in which everything but what the
    arguments choose succeeds. *)
Definition cluster (roundTripper : option error) (fw : forwarding)
    (body : result (list Byte.byte))
    (reads : nat -> result (Z * list Byte.byte)) : Env :=
  {| RuntimeAPIVersion := "1";
     GetKubeConfigClient := inl (RestConfig "https://10.0.0.1:6443",
                                 Clientset "https://10.0.0.1:6443");
     Client := inl (Clientset "https://10.0.0.1:6443");
     GetAppPod := resolvePod [corePod; pendingPod];
     NewForConfig := fun _ => None;
     RoundTripperFor := fun _ => roundTripper;
     NewOnAddresses := fun _ _ => None;
     ForwardPorts := fun _ _ => fw;
     AppRequest := fun _ _ _ _ => None;
     Raw := fun _ _ _ _ => body;
     NewRequest := fun _ _ => None;
     Do := fun _ _ _ => inl {| StatusCode := 200; Body := body |};
     Dial := fun _ => None;
     WriteMessage := fun _ _ => None;
     ReadMessage := reads |}.

Definition bound : forwarding :=
  ReadyFirst (inl [{| Local := 40123; Remote := 3500 |}]).

Definition dialFailed : forwarding :=
  FailureFirst (errorString "error upgrading connection: dial tcp: connection refused").

Definition healthy : Env := cluster None bound (inl payload) echo.

(** The forwarder becomes ready but does not give its ports. *)
Definition unread : forwarding :=
  ReadyFirst (inr (errorString "listeners not ready")).

(** The same cluster when the tunnel goes to the application port. *)
Definition streaming : Env :=
  cluster None (ReadyFirst (inl [{| Local := 40123; Remote := 6789 |}]))
    (inl payload) echo.

(** The session of the stream relay for [corePod] and the world [Init]
    leaves when the forwarder has bound port 40123. *)
Definition streamSession : PortForward :=
  newSession (RestConfig "https://10.0.0.1:6443") "tkeel-system" "core-5f7b9"
    "127.0.0.1" 0 6789 false.

Definition streamBound : PortForward :=
  setPorts 40123 6789 (setReadyCh chClosed streamSession).

Definition streamReady : world :=
  stored 0 streamBound
    (logged [EvForwardPorts ["127.0.0.1"] ["0:6789"]]
       (allocated streamSession emptyWorld)).

(** A session as [GetPortforward] makes it for [corePod], alone on the
    heap. *)
Definition session : PortForward :=
  newSession (RestConfig "https://10.0.0.1:6443") "tkeel-system" "core-5f7b9"
    "127.0.0.1" 0 3500 false.

Definition fresh : world := allocated session emptyWorld.

End Scenario.

(** ** The options of [GetPortforward] by name *)

(** The three configure options the package provides. *)
Inductive optionName : Type := OptHTTPPort | OptAppPort | OptAppPod.

Definition optionOf (o : optionName) : PortForwardConfigureOption :=
  match o with
  | OptHTTPPort => WithHTTPPort
  | OptAppPort => WithAppPort
  | OptAppPod => WithAppPod
  end.

(** The session after the options [opts] were applied from left to right. *)
Definition configureOne (app : AppPod) (s : PortForward) (o : optionName)
  : PortForward :=
  match o with
  | OptHTTPPort => setPorts (LocalPort s) (HTTPPort app) s
  | OptAppPort => setPorts (LocalPort s) (AppPort app) s
  | OptAppPod => setApp (Some app) s
  end.

Definition configured (opts : list optionName) (app : AppPod) (s : PortForward)
  : PortForward :=
  fold_left (configureOne app) opts s.

(** The remote port the last port option of [opts] selects, [r0] when there
    is none. *)
Definition remotePortAfter (opts : list optionName) (app : AppPod) (r0 : Z) : Z :=
  fold_left (fun r o => match o with
                        | OptHTTPPort => HTTPPort app
                        | OptAppPort => AppPort app
                        | OptAppPod => r
                        end) opts r0.

(** ** Reasoning about executions *)

(** Addresses from [next] on are free. *)
Definition wfWorld (w : world) : Prop :=
  forall b, (next w <= b)%nat -> heap w !! b = None.

(** However [m] ends, it allocates nothing, changes no session but the one
    at [p], and only adds to the log. *)
Definition touchesOnly {A} (p : ptr) (m : M A) : Prop :=
  forall w,
    next (worldOf (m w)) = next w
    /\ (forall b, p <> Some b -> heap (worldOf (m w)) !! b = heap w !! b)
    /\ exists evs, log (worldOf (m w)) = log w ++ evs.

(** However [m] ends from a world whose free addresses are free, it
    allocates at most one session, leaves every session that existed as it
    was, keeps the free addresses free, and only adds to the log. *)
Definition keepsSessions {A} (m : M A) : Prop :=
  forall w,
    wfWorld w ->
    wfWorld (worldOf (m w))
    /\ (next w <= next (worldOf (m w)) <= S (next w))%nat
    /\ (forall b s, heap w !! b = Some s -> heap (worldOf (m w)) !! b = Some s)
    /\ exists evs, log (worldOf (m w)) = log w ++ evs.

(** Whenever [m] returns, what it returns satisfies [P]. *)
Definition returnsOnly {A} (P : A -> Prop) (m : M A) : Prop :=
  forall w a w', m w = Returns a w' -> P a.

(** A format label without a verb. *)
Fixpoint noPercent (s : string) : bool :=
  match s with
  | EmptyString => true
  | String c rest => negb (Ascii.eqb c "%") && noPercent rest
  end.

(** A Go result pair: the empty string comes with every non-nil error. *)
Definition emptyOnError (r : string * option error) : Prop :=
  snd r <> None -> fst r = "".

(** A Go result pair of a constructor: the pointer is nil exactly when the
    error is not. *)
Definition pointerOrError (r : ptr * option error) : Prop :=
  (fst r = None <-> snd r <> None).

(** ** The command [user show] (package [user]) *)

Module UserShow.

(** What the command hands to the printing helpers, which are not among the
    sources: [print.WarningStatusEvent(os.Stdout, msg)],
    [print.FailureStatusEvent(os.Stdout, msg)] and
    [fmtutil.PrintTable(table)]. *)
Inductive output : Type :=
| WarningStatusEvent (msg : string)
| FailureStatusEvent (msg : string)
| PrintTable (table : string).

(** How [Run] ends: [os.Exit(code)], a normal return, or a panic. *)
Inductive ending : Type :=
| Exit (code : Z)
| Return
| Panic (msg : string).

(** The collaborators of the command, for user records of type [data]:
    [kubernetes.TenantUserInfo(tenant, userID)] and
    [gocsv.MarshalString(data)]. *)
Record Lookup (data : Type) : Type := {
  TenantUserInfo : string -> string -> result data;
  MarshalString : data -> result string
}.

Arguments TenantUserInfo {data} _ _ _.
Arguments MarshalString {data} _ _.

(** [UserInfoCmd.Run]: [tenant] is the package variable the [--tenant] flag
    is bound to, [args] the positional arguments cobra passes. *)
Definition Run {data : Type} (L : Lookup data) (tenant : string)
    (args : list string) : list output * ending :=
  if negb (len args =? 2) then
    ([WarningStatusEvent "Please specify the user id";
      WarningStatusEvent "For example, tkeel user show <user-id> -t <tenant-id>"],
     Exit 1)
  else
    match args with
    | [] => ([], Panic "index out of range [0] with length 0")
    | userID :: _ =>
        match TenantUserInfo L tenant userID with
        | inr err => ([FailureStatusEvent (Error err)], Exit 1)
        | inl d =>
            match MarshalString L d with
            | inr err => ([FailureStatusEvent (Error err)], Exit 1)
            | inl table => ([PrintTable table], Return)
            end
        end
    end.

(** A directory with one user of tenant [acme]. *)
Definition directory : Lookup (string * string) :=
  {| TenantUserInfo := fun tenant userID =>
       if String.eqb tenant "acme" && String.eqb userID "u-42"
       then inl ("u-42", "alice")
       else inr (errorString ("user " +:+ userID +:+ " not found"));
     MarshalString := fun d => inl ("id,name" +:+ fst d +:+ "," +:+ snd d) |}.

(** A directory in which every lookup fails. *)
Definition unreachable : Lookup (string * string) :=
  {| TenantUserInfo := fun _ _ => inr (errorString "connection refused");
     MarshalString := fun _ => inr (errorString "connection refused") |}.

End UserShow.

(** ** More scenarios *)

Module Fixture.

(** A world with an older session at address 0 and address 1 free. *)
Definition older : PortForward :=
  newSession (RestConfig "https://10.0.0.1:6443") "tkeel-system" "keel-66c4f"
    "127.0.0.1" 0 31234 false.

Definition busy : world := allocated older emptyWorld.

(** The session [NewPortForward] makes for [Scenario.corePod] in [busy]. *)
Definition second : PortForward :=
  newSession (RestConfig "https://10.0.0.1:6443") "tkeel-system" "core-5f7b9"
    "127.0.0.1" 0 3500 false.

(** The calls of the collaborators that can be made to fail. *)
Inductive stage : Type :=
| AtKubeConfig | AtClient | AtNewForConfig | AtNewOnAddresses
| AtAppRequest | AtRaw | AtNewRequest | AtDo | AtBody | AtDial | AtWrite.

Definition isStage (a b : stage) : bool :=
  match a, b with
  | AtKubeConfig, AtKubeConfig | AtClient, AtClient
  | AtNewForConfig, AtNewForConfig | AtNewOnAddresses, AtNewOnAddresses
  | AtAppRequest, AtAppRequest | AtRaw, AtRaw | AtNewRequest, AtNewRequest
  | AtDo, AtDo | AtBody, AtBody | AtDial, AtDial | AtWrite, AtWrite => true
  | _, _ => false
  end.

(** The cluster [E] in which the call [failed] fails with [err] and every
    other call succeeds. *)
Definition failing (E : Env) (failed : stage) (err : error) : Env :=
  let fails (b : stage) : bool := isStage failed b in
  {| RuntimeAPIVersion := RuntimeAPIVersion E;
     GetKubeConfigClient :=
       if fails AtKubeConfig then inr err else GetKubeConfigClient E;
     Client := if fails AtClient then inr err else Client E;
     GetAppPod := GetAppPod E;
     NewForConfig := fun c => if fails AtNewForConfig then Some err else None;
     RoundTripperFor := RoundTripperFor E;
     NewOnAddresses :=
       fun a p => if fails AtNewOnAddresses then Some err else None;
     ForwardPorts := ForwardPorts E;
     AppRequest :=
       fun _ _ _ _ => if fails AtAppRequest then Some err else None;
     Raw := fun _ _ _ _ =>
       if fails AtRaw then inr err else inl Scenario.payload;
     NewRequest := fun _ _ => if fails AtNewRequest then Some err else None;
     Do := fun _ _ _ =>
       if fails AtDo then inr err
       else inl {| StatusCode := 200;
                   Body := if fails AtBody then inr err
                           else inl Scenario.payload |};
     Dial := fun _ => if fails AtDial then Some err else None;
     WriteMessage := fun _ _ => if fails AtWrite then Some err else None;
     ReadMessage := ReadMessage E |}.

Definition boom : error := errorString "boom".


(** The session of the request relay for [Scenario.corePod] once the
    forwarder has bound port 40123, and the world [Init] leaves then. *)
Definition requestBound : PortForward :=
  setPorts 40123 3500 (setReadyCh chClosed Scenario.session).

Definition requestReady : world :=
  stored 0 requestBound
    (logged [EvForwardPorts ["127.0.0.1"] ["0:3500"]] Scenario.fresh).

End Fixture.

(** * Properties *)

(** ** Strings and formatting *)

Lemma append_empty (s : string) : s +:+ "" = s.
Proof.
  induction s as [|c s IH]; [reflexivity |].
  change (String c (s +:+ "") = String c s). now rewrite IH.
Qed.

Lemma prefix_same (s : string) : String.prefix s s = true.
Proof.
  induction s as [|c s IH]; simpl; [reflexivity |].
  destruct (ascii_dec c c) as [_ | n]; [exact IH | now elim n].
Qed.

Lemma Contains_unfold (s substr : string) :
  Contains s substr
  = String.prefix substr s ||
    match s with
    | EmptyString => false
    | String _ s' => Contains s' substr
    end.
Proof. destruct s; reflexivity. Qed.

Lemma Contains_suffix (p s : string) : Contains (p +:+ s) s = true.
Proof.
  induction p as [|c p IH].
  - change ("" +:+ s) with s. rewrite Contains_unfold, prefix_same. reflexivity.
  - change (String c p +:+ s) with (String c (p +:+ s)).
    rewrite Contains_unfold, IH. apply orb_true_r.
Qed.

(** The two formats of [Init] and of the relays, on any operands. *)
Lemma Sprintf_v_int (n : Z) : Sprintf "%v" [AInt n] = itoa n.
Proof. unfold Sprintf; simpl. unfold printArg; simpl. apply append_empty. Qed.

Lemma Sprintf_ws (port method : string) :
  Sprintf "ws://127.0.0.1:%s/%s" [AString port; AString method]
  = "ws://127.0.0.1:" +:+ port +:+ "/" +:+ method.
Proof.
  unfold Sprintf; simpl. unfold printArg; simpl.
  rewrite append_empty. reflexivity.
Qed.

Lemma Sprintf_http (port version app method : string) :
  Sprintf "http://127.0.0.1:%s/v%s/invoke/%s/method/%s"
    [AString port; AString version; AString app; AString method]
  = "http://127.0.0.1:" +:+ port +:+ "/v" +:+ version +:+ "/invoke/" +:+ app
    +:+ "/method/" +:+ method.
Proof.
  unfold Sprintf; simpl. unfold printArg; simpl.
  rewrite append_empty. reflexivity.
Qed.

Lemma Errorf_no_running_pods (pluginID : string) :
  Errorf "no running pods found for %s" [AString pluginID]
  = errorString ("no running pods found for " +:+ pluginID).
Proof.
  unfold Errorf; simpl. unfold printArg; simpl.
  rewrite append_empty. reflexivity.
Qed.

(** ** Heap and log bookkeeping *)

Lemma load_at (w : world) (a : nat) (s : PortForward) :
  heap w !! a = Some s -> load (Some a) w = Returns s w.
Proof. intros H. unfold load. now rewrite H. Qed.

Lemma update_at (w : world) (a : nat) (s : PortForward) f :
  heap w !! a = Some s -> update (Some a) f w = Returns tt (stored a (f s) w).
Proof. intros H. unfold update, bind. now rewrite (load_at _ _ _ H). Qed.

Lemma stored_lookup (w : world) (a : nat) (s : PortForward) :
  heap (stored a s w) !! a = Some s.
Proof. simpl. apply lookup_insert_eq. Qed.

Lemma logged_app (w : world) (e1 e2 : list event) :
  logged e2 (logged e1 w) = logged (e1 ++ e2) w.
Proof. unfold logged; simpl. now rewrite <- app_assoc. Qed.

Lemma stored_logged (w : world) (a : nat) (s : PortForward) (evs : list event) :
  logged evs (stored a s w) = stored a s (logged evs w).
Proof. reflexivity. Qed.

Lemma stored_stored (w : world) (a : nat) (s1 s2 : PortForward) :
  stored a s2 (stored a s1 w) = stored a s2 w.
Proof. unfold stored; simpl. now rewrite insert_insert_eq. Qed.

(** ** Stop *)

Lemma Stop_open (w : world) (a : nat) (s : PortForward) :
  heap w !! a = Some s -> StopCh s = chOpen ->
  Stop (Some a) w
  = Returns tt (logged [EvCloseStopCh (Some a)] (stored a (setStopCh chClosed s) w)).
Proof.
  intros Hs Ho. unfold Stop, bind.
  rewrite (load_at _ _ _ Hs), Ho, (update_at _ _ _ _ Hs). reflexivity.
Qed.

Lemma Stop_closed (w : world) (a : nat) (s : PortForward) :
  heap w !! a = Some s -> StopCh s = chClosed ->
  Stop (Some a) w = Panics "close of closed channel" w.
Proof.
  intros Hs Hc. unfold Stop, bind. now rewrite (load_at _ _ _ Hs), Hc.
Qed.

(** C1, as stated, fails: on a freshly made session the first [Stop()]
    closes the stop channel and the second one panics with Go's
    "close of closed channel"; it does not return. *)
Lemma Stop_twice_panics :
  (run Stop (Some 0%nat); Stop (Some 0%nat)) Scenario.fresh
  = Panics "close of closed channel"
      (logged [EvCloseStopCh (Some 0%nat)]
         (stored 0 (setStopCh chClosed Scenario.session) Scenario.fresh))
  /\ ~ (exists w',
          (run Stop (Some 0%nat); Stop (Some 0%nat)) Scenario.fresh
          = Returns tt w').
Proof.
  assert (H : (run Stop (Some 0%nat); Stop (Some 0%nat)) Scenario.fresh
              = Panics "close of closed channel"
                  (logged [EvCloseStopCh (Some 0%nat)]
                     (stored 0 (setStopCh chClosed Scenario.session)
                        Scenario.fresh))).
  { unfold bind.
    rewrite (Stop_open Scenario.fresh 0 Scenario.session) by reflexivity.
    apply (Stop_closed _ 0 (setStopCh chClosed Scenario.session));
      [apply stored_lookup | reflexivity]. }
  split; [exact H |]. intros [w' Hw']. rewrite H in Hw'. discriminate.
Qed.

(** C1, amended: on a session whose stop channel is open, [Stop()] closes
    the channel and returns; [Stop()] has no once-guard, so a second call on
    the same session panics ("close of closed channel") and changes
    nothing. *)
Theorem Stop_closes_once_then_faults :
  forall (w : world) (a : nat) (s : PortForward),
    heap w !! a = Some s ->
    StopCh s = chOpen ->
    exists w1,
      Stop (Some a) w = Returns tt w1
      /\ heap w1 !! a = Some (setStopCh chClosed s)
      /\ log w1 = log w ++ [EvCloseStopCh (Some a)]
      /\ Stop (Some a) w1 = Panics "close of closed channel" w1.
Proof.
  intros w a s Hs Ho. eexists. split; [apply (Stop_open _ _ _ Hs Ho) |].
  split; [apply lookup_insert_eq |]. split; [reflexivity |].
  apply (Stop_closed _ a (setStopCh chClosed s)); [apply lookup_insert_eq | reflexivity].
Qed.

Lemma Stop_closes_once_then_faults_witness :
  heap Scenario.fresh !! 0%nat = Some Scenario.session
  /\ StopCh Scenario.session = chOpen
  /\ exists w1,
       Stop (Some 0%nat) Scenario.fresh = Returns tt w1
       /\ heap w1 !! 0%nat = Some (setStopCh chClosed Scenario.session)
       /\ log w1 = log Scenario.fresh ++ [EvCloseStopCh (Some 0%nat)]
       /\ Stop (Some 0%nat) w1 = Panics "close of closed channel" w1.
Proof.
  split; [reflexivity |]. split; [reflexivity |].
  apply (Stop_closes_once_then_faults Scenario.fresh 0 Scenario.session);
    reflexivity.
Defined.

(** ** The relay targets *)

(** C4: the HTTP target is
    [http://127.0.0.1:<local-port>/v<api-version>/invoke/<app-id>/method/<method>]
    and the stream target is [ws://127.0.0.1:<local-port>/<method>], with the
    session's local port in decimal and the app's id. *)
Theorem relay_urls_fixed_format :
  forall (E : Env) (app : AppPod) (pf : PortForward) (method : string),
    makeEndpoint E app pf method
    = "http://127.0.0.1:" +:+ itoa (LocalPort pf) +:+ "/v" +:+ RuntimeAPIVersion E
      +:+ "/invoke/" +:+ AppID app +:+ "/method/" +:+ method
    /\ makeWsEndpoint pf method
       = "ws://127.0.0.1:" +:+ itoa (LocalPort pf) +:+ "/" +:+ method.
Proof.
  intros E app pf method. unfold makeEndpoint, makeWsEndpoint.
  rewrite Sprintf_v_int, Sprintf_http, Sprintf_ws. split; reflexivity.
Qed.

Example relay_urls_core_status :
  makeEndpoint Scenario.healthy Scenario.corePod
    (setPorts 40123 3500 Scenario.session) "status"
  = "http://127.0.0.1:40123/v1/invoke/core/method/status"
  /\ makeWsEndpoint (setPorts 40123 6789 Scenario.session) "status"
     = "ws://127.0.0.1:40123/status".
Proof. split; reflexivity. Qed.

(** ** Response bodies *)

Lemma len_pos_cons {A} (x : A) (l : list A) : (0 <? len (x :: l)) = true.
Proof. apply Z.ltb_lt. unfold len. simpl length. lia. Qed.

Lemma handleResponse_body (response : Response) (rb : list Byte.byte) :
  Body response = inl rb ->
  handleResponse response = (string_of_list_byte rb, None).
Proof.
  intros H. unfold handleResponse. rewrite H.
  destruct rb as [|b rb]; [reflexivity |]. now rewrite len_pos_cons.
Qed.

(** ** Init *)

Section InitFacts.

Variable E : Env.
Variables (w : world) (a : nat) (s : PortForward).
Hypothesis Hs : heap w !! a = Some s.

Let started : world := logged [EvForwardPorts [Host s] (portSpec s)] w.

Lemma Init_no_round_tripper (err : error) :
  RoundTripperFor E (Config s) = Some err ->
  Init E (Some a) w
  = Returns (Some (Errorf "error creat spdy round tripper: %w" [AError err])) w.
Proof.
  intros H. unfold Init, bind. rewrite (load_at _ _ _ Hs), H. reflexivity.
Qed.

Lemma Init_no_forwarder (err : error) :
  RoundTripperFor E (Config s) = None ->
  NewOnAddresses E [Host s] (portSpec s) = Some err ->
  Init E (Some a) w
  = Returns (Some (Errorf "error creat portforward: %w" [AError err])) w.
Proof.
  intros H1 H2. unfold Init, bind. rewrite (load_at _ _ _ Hs), H1, H2.
  reflexivity.
Qed.

Hypothesis Hsel : reachesSelect E s.

Lemma Init_select :
  Init E (Some a) w
  = match ForwardPorts E [Host s] (portSpec s) with
    | ReadyFirst getPorts =>
        (run update (Some a) (setReadyCh chClosed);
         run match getPorts with
             | inl [] => panic "index out of range [0] with length 0"
             | inl (p0 :: _) =>
                 update (Some a) (setPorts (Local p0) (Remote p0))
             | inr _ => ret tt
             end;
         ret None) started
    | FailureFirst err => Returns (Some err) started
    | NeitherEver => Blocks started
    end.
Proof.
  destruct Hsel as [H1 H2]. unfold Init, bind at 1.
  rewrite (load_at _ _ _ Hs), H1, H2. unfold bind at 1, emit.
  destruct (ForwardPorts E [Host s] (portSpec s)); reflexivity.
Qed.

Lemma Init_ready_ports (p0 : ForwardedPort) (rest : list ForwardedPort) :
  ForwardPorts E [Host s] (portSpec s) = ReadyFirst (inl (p0 :: rest)) ->
  Init E (Some a) w
  = Returns None
      (stored a (setPorts (Local p0) (Remote p0) (setReadyCh chClosed s)) started).
Proof.
  intros H. rewrite Init_select, H. unfold bind.
  rewrite (update_at started a s) by exact Hs.
  rewrite (update_at _ a (setReadyCh chClosed s)) by apply stored_lookup.
  now rewrite stored_stored.
Qed.

Lemma Init_ready_unread (err : error) :
  ForwardPorts E [Host s] (portSpec s) = ReadyFirst (inr err) ->
  Init E (Some a) w
  = Returns None (stored a (setReadyCh chClosed s) started).
Proof.
  intros H. rewrite Init_select, H. unfold bind.
  now rewrite (update_at started a s) by exact Hs.
Qed.

Lemma Init_failure_first (err : error) :
  ForwardPorts E [Host s] (portSpec s) = FailureFirst err ->
  Init E (Some a) w = Returns (Some err) started.
Proof. intros H. now rewrite Init_select, H. Qed.

Lemma Init_neither :
  ForwardPorts E [Host s] (portSpec s) = NeitherEver ->
  Init E (Some a) w = Blocks started.
Proof. intros H. now rewrite Init_select, H. Qed.

End InitFacts.

(** Whatever [Init] returns, it leaves the stop channel as it was, closes
    no stop channel, and allocates nothing. *)
Lemma Init_returns (E : Env) (w w2 : world) (a : nat) (r : option error) :
  Init E (Some a) w = Returns r w2 ->
  exists s s2 evs,
    heap w !! a = Some s
    /\ heap w2 = <[a := s2]> (heap w)
    /\ StopCh s2 = StopCh s
    /\ next w2 = next w
    /\ log w2 = log w ++ evs
    /\ stopped evs = []
    /\ (r = None -> ReadyCh s2 = chClosed).
Proof.
  intros H.
  destruct (heap w !! a) as [s|] eqn:Hs.
  2:{ unfold Init, bind, load in H. rewrite Hs in H. discriminate. }
  exists s.
  destruct (RoundTripperFor E (Config s)) as [e|] eqn:H1.
  { rewrite (Init_no_round_tripper E w a s Hs e H1) in H. inversion H; subst.
    exists s, []. rewrite app_nil_r, insert_id by exact Hs.
    repeat split; try reflexivity. discriminate. }
  destruct (NewOnAddresses E [Host s] (portSpec s)) as [e|] eqn:H2.
  { rewrite (Init_no_forwarder E w a s Hs e H1 H2) in H. inversion H; subst.
    exists s, []. rewrite app_nil_r, insert_id by exact Hs.
    repeat split; try reflexivity. discriminate. }
  assert (Hsel : reachesSelect E s) by (split; assumption).
  destruct (ForwardPorts E [Host s] (portSpec s)) as [[[|p0 rest]|e]|e|] eqn:H3.
  - rewrite (Init_select E w a s Hs Hsel), H3 in H. unfold bind in H.
    rewrite (update_at _ a s) in H by exact Hs. discriminate.
  - rewrite (Init_ready_ports E w a s Hs Hsel p0 rest H3) in H.
    inversion H; subst.
    exists (setPorts (Local p0) (Remote p0) (setReadyCh chClosed s)),
      [EvForwardPorts [Host s] (portSpec s)].
    repeat split; reflexivity.
  - rewrite (Init_ready_unread E w a s Hs Hsel e H3) in H. inversion H; subst.
    exists (setReadyCh chClosed s), [EvForwardPorts [Host s] (portSpec s)].
    repeat split; reflexivity.
  - rewrite (Init_failure_first E w a s Hs Hsel e H3) in H. inversion H; subst.
    exists s, [EvForwardPorts [Host s] (portSpec s)].
    simpl. rewrite insert_id by exact Hs.
    repeat split; try reflexivity. discriminate.
  - rewrite (Init_neither E w a s Hs Hsel H3) in H. discriminate.
Qed.




(** C9: when the ready signal fires but [fw.GetPorts()] fails, [Init]
    returns nil all the same and [LocalPort] and [RemotePort] keep the
    values they had before the call; a session made with local port 0 then
    still holds 0. *)
Theorem Init_ready_but_ports_unread :
  forall (E : Env) (w : world) (a : nat) (s : PortForward) (err : error),
    heap w !! a = Some s ->
    reachesSelect E s ->
    ForwardPorts E [Host s] (portSpec s) = ReadyFirst (inr err) ->
    exists w' s',
      Init E (Some a) w = Returns None w'
      /\ heap w' !! a = Some s'
      /\ ReadyCh s' = chClosed
      /\ LocalPort s' = LocalPort s /\ RemotePort s' = RemotePort s
      /\ (LocalPort s = 0 -> LocalPort s' = 0).
Proof.
  intros E w a s err Hs Hsel H. eexists; eexists.
  split; [apply (Init_ready_unread E w a s Hs Hsel err H) |].
  split; [apply stored_lookup |]. repeat split; try reflexivity.
  intros H0. exact H0.
Qed.

Lemma Init_ready_but_ports_unread_witness :
  exists w' s',
    Init (Scenario.cluster None Scenario.unread (inl Scenario.payload)
            Scenario.echo) (Some 0%nat) Scenario.fresh = Returns None w'
    /\ heap w' !! 0%nat = Some s'
    /\ ReadyCh s' = chClosed
    /\ LocalPort s' = 0 /\ RemotePort s' = 3500
    /\ (LocalPort Scenario.session = 0 -> LocalPort s' = 0).
Proof.
  exact (Init_ready_but_ports_unread
           (Scenario.cluster None Scenario.unread (inl Scenario.payload)
              Scenario.echo)
           Scenario.fresh 0 Scenario.session
           (errorString "listeners not ready")
           eq_refl (conj eq_refl eq_refl) eq_refl).
Defined.

(** With the ports unread, the request relay targets port 0. *)
Example InvokeByPortForward_unread_port :
  let o := InvokeByPortForward
             (Scenario.cluster None Scenario.unread (inl Scenario.payload)
                Scenario.echo)
             "core" "status" [] "GET" emptyWorld in
  returned o = Some ("running", None)
  /\ stdout (log (worldOf o))
     = [VString "http://127.0.0.1:0/v1/invoke/core/method/status"].
Proof. split; vm_compute; reflexivity. Qed.

(** ** The request relay *)

Lemma NewPortForward_ok (E : Env) (config : restConfig)
    (namespace podName host : string) (localPort remotePort : Z)
    (emitLogs : bool) (w : world) :
  NewForConfig E config = None ->
  NewPortForward E config namespace podName host localPort remotePort emitLogs w
  = Returns (Some (next w), None)
      (allocated (newSession config namespace podName host localPort
                    remotePort emitLogs) w).
Proof. intros H. unfold NewPortForward. rewrite H. reflexivity. Qed.

Lemma NewPortForward_fails (E : Env) (config : restConfig)
    (namespace podName host : string) (localPort remotePort : Z)
    (emitLogs : bool) (w : world) (err : error) :
  NewForConfig E config = Some err ->
  NewPortForward E config namespace podName host localPort remotePort emitLogs w
  = Returns (None, Some (Errorf "error get k8s client: %w" [AError err])) w.
Proof. intros H. unfold NewPortForward. rewrite H. reflexivity. Qed.

Section InvokeFacts.

Variable E : Env.
Variables (pluginID method : string) (data : list Byte.byte) (verb : string).
Variables (config : restConfig) (client : clientset) (app : AppPod).
Variable w : world.

Hypothesis Hkube : GetKubeConfigClient E = inl (config, client).
Hypothesis Hpod : GetAppPod E client pluginID = inl app.
Hypothesis Hclient : NewForConfig E config = None.

(** The world in which [InvokeByPortForward] calls [Init]. *)
Let made : world :=
  allocated (newSession config (Namespace app) (PodName app)
               "127.0.0.1" 0 (HTTPPort app) false) w.

(** [Init] failed: the session is stopped and the caller gets no error. *)
Lemma InvokeByPortForward_Init_failed (err : error) (w2 : world) :
  Init E (Some (next w)) made = Returns (Some err) w2 ->
  exists s2,
    heap w2 !! next w = Some s2
    /\ InvokeByPortForward E pluginID method data verb w
       = Returns ("", None)
           (logged [EvCloseStopCh (Some (next w))]
              (stored (next w) (setStopCh chClosed s2) w2)).
Proof.
  intros HI.
  destruct (Init_returns E made w2 (next w) _ HI)
    as (s & s2 & evs & Hs & Hh & Hst & _).
  assert (Hs2 : heap w2 !! next w = Some s2)
    by (rewrite Hh; apply lookup_insert_eq).
  exists s2. split; [exact Hs2 |].
  unfold InvokeByPortForward. rewrite Hkube, Hpod. unfold bind at 1.
  rewrite (NewPortForward_ok E) by exact Hclient. cbv beta iota.
  unfold bind at 1. fold made. rewrite HI. cbv beta iota. unfold bind at 1.
  rewrite (Stop_open w2 (next w) s2); [reflexivity | exact Hs2 |].
  rewrite Hst. unfold made in Hs. simpl in Hs.
  rewrite lookup_insert_eq in Hs. now inversion Hs.
Qed.

(** [Init] succeeded: the three ways the relay returns. *)
Lemma InvokeByPortForward_Init_ok (w2 : world) (s2 : PortForward) :
  Init E (Some (next w)) made = Returns None w2 ->
  heap w2 !! next w = Some s2 ->
  InvokeByPortForward E pluginID method data verb w
  = let url := makeEndpoint E app s2 method in
    match NewRequest E verb url with
    | Some err =>
        Returns ("", Some (Errorf "error creat http request: %w" [AError err]))
          (logged [EvPrintln (VString url)] w2)
    | None =>
        match Do E verb url data with
        | inr err =>
            Returns ("", Some (Errorf "error do http request: %w" [AError err]))
              (logged [EvPrintln (VString url);
                       EvHTTPDo verb url data "application/json"] w2)
        | inl r =>
            Returns (handleResponse r)
              (logged [EvPrintln (VString url);
                       EvHTTPDo verb url data "application/json";
                       EvBodyClose] w2)
        end
    end.
Proof.
  intros HI Hs2.
  unfold InvokeByPortForward. rewrite Hkube, Hpod. unfold bind at 1.
  rewrite (NewPortForward_ok E) by exact Hclient. cbv beta iota.
  unfold bind at 1. fold made. rewrite HI. cbv beta iota. unfold bind at 1.
  rewrite (load_at _ _ _ Hs2). cbv beta zeta.
  unfold bind at 1, Println, emit.
  destruct (NewRequest E verb (makeEndpoint E app s2 method)); [reflexivity |].
  unfold bind at 1, emit. rewrite logged_app.
  destruct (Do E verb (makeEndpoint E app s2 method) data); [| reflexivity].
  unfold defer, ret, bind, emit. rewrite logged_app. reflexivity.
Qed.

End InvokeFacts.

(** C2: every other failure of the two relays is returned to the caller, but
    not a failing [Init]: with a forwarder whose dial is refused, [Init] returns
    that error and both [InvokeByPortForward] and [WebsocketByPortForward]
    return the empty string with a nil error. *)
Theorem Init_error_not_propagated :
  let E := Scenario.cluster None Scenario.dialFailed (inl Scenario.payload)
             Scenario.echo in
  returned (Init E (Some 0%nat) Scenario.fresh)
  = Some (Some (errorString
       "error upgrading connection: dial tcp: connection refused"))
  /\ returned (InvokeByPortForward E "core" "status" [] "GET" emptyWorld)
     = Some ("", None)
  /\ forall fuel,
       returned (WebsocketByPortForward E fuel "core" "status" Scenario.payload
                   emptyWorld)
       = Some ("", None).
Proof.
  split; [reflexivity |]. split; [reflexivity |].
  intros fuel. reflexivity.
Qed.

(** The same when [Init] fails with one of its own labelled errors. *)
Example round_tripper_error_not_propagated :
  let E := Scenario.cluster (Some (errorString "no credentials")) Scenario.bound
             (inl Scenario.payload) Scenario.echo in
  returned (Init E (Some 0%nat) Scenario.fresh)
  = Some (Some (wrapError "error creat spdy round tripper: no credentials"
                  (errorString "no credentials")))
  /\ returned (InvokeByPortForward E "core" "status" [] "GET" emptyWorld)
     = Some ("", None).
Proof. split; reflexivity. Qed.

(** C5: a response body that reads successfully comes back as the string of
    exactly its bytes, from [handleResponse], from [invoke] and from
    [InvokeByPortForward]; an empty body gives the empty string and a nil
    error. *)
Theorem body_returned_verbatim :
  forall (E : Env),
    (forall response rb,
        Body response = inl rb ->
        handleResponse response = (string_of_list_byte rb, None)
        /\ list_byte_of_string (fst (handleResponse response)) = rb)
    /\ (forall response,
          Body response = inl [] -> handleResponse response = ("", None))
    /\ (forall app method data verb rb,
          AppRequest E app verb method data = None ->
          Raw E app verb method data = inl rb ->
          invoke E app method data verb = (string_of_list_byte rb, None)
          /\ (rb = [] -> invoke E app method data verb = ("", None)))
    /\ (forall pluginID method data verb config client app w w2 s2 r rb,
          GetKubeConfigClient E = inl (config, client) ->
          GetAppPod E client pluginID = inl app ->
          NewForConfig E config = None ->
          Init E (Some (next w))
            (allocated (newSession config (Namespace app) (PodName app)
                          "127.0.0.1" 0 (HTTPPort app) false) w)
          = Returns None w2 ->
          heap w2 !! next w = Some s2 ->
          NewRequest E verb (makeEndpoint E app s2 method) = None ->
          Do E verb (makeEndpoint E app s2 method) data = inl r ->
          Body r = inl rb ->
          returned (InvokeByPortForward E pluginID method data verb w)
          = Some (string_of_list_byte rb, None)).
Proof.
  intros E. split; [| split; [| split]].
  - intros response rb H. rewrite (handleResponse_body _ _ H).
    split; [reflexivity | apply list_byte_of_string_of_list_byte].
  - intros response H. apply (handleResponse_body _ _ H).
  - intros app method data verb rb Hreq Hraw. unfold invoke.
    rewrite Hreq, Hraw. split.
    + destruct rb as [|b rb]; [reflexivity |]. now rewrite len_pos_cons.
    + intros ->. reflexivity.
  - intros pluginID method data verb config client app w w2 s2 r rb
      Hkube Hpod Hclient HI Hs2 Hreq Hdo Hbody.
    rewrite (InvokeByPortForward_Init_ok E pluginID method data verb config
               client app w Hkube Hpod Hclient w2 s2 HI Hs2).
    cbv zeta. rewrite Hreq, Hdo. simpl.
    now rewrite (handleResponse_body _ _ Hbody).
Qed.

Lemma body_returned_verbatim_witness :
  handleResponse {| StatusCode := 200; Body := inl Scenario.payload |}
  = ("running", None)
  /\ handleResponse {| StatusCode := 204; Body := inl [] |} = ("", None)
  /\ invoke Scenario.healthy Scenario.corePod "status" [] "GET"
     = ("running", None)
  /\ returned (InvokeByPortForward Scenario.healthy "core" "status" [] "GET"
                 emptyWorld)
     = Some ("running", None).
Proof.
  split.
  { exact (proj1 (proj1 (body_returned_verbatim Scenario.healthy)
                    {| StatusCode := 200; Body := inl Scenario.payload |}
                    Scenario.payload eq_refl)). }
  split.
  { exact (proj1 (proj2 (body_returned_verbatim Scenario.healthy))
             {| StatusCode := 204; Body := inl [] |} eq_refl). }
  split.
  { exact (proj1 (proj1 (proj2 (proj2 (body_returned_verbatim Scenario.healthy)))
                    Scenario.corePod "status" [] "GET" Scenario.payload
                    eq_refl eq_refl)). }
  exact (proj2 (proj2 (proj2 (body_returned_verbatim Scenario.healthy)))
           "core" "status" [] "GET"
           (RestConfig "https://10.0.0.1:6443")
           (Clientset "https://10.0.0.1:6443") Scenario.corePod emptyWorld
           (stored 0 (setPorts 40123 3500 (setReadyCh chClosed Scenario.session))
              (logged [EvForwardPorts ["127.0.0.1"] ["0:3500"]] Scenario.fresh))
           (setPorts 40123 3500 (setReadyCh chClosed Scenario.session))
           {| StatusCode := 200; Body := inl Scenario.payload |}
           Scenario.payload
           eq_refl eq_refl eq_refl eq_refl eq_refl eq_refl eq_refl eq_refl).
Defined.

Lemma stopped_app (l1 l2 : list event) :
  stopped (l1 ++ l2) = stopped l1 ++ stopped l2.
Proof. apply omap_app. Qed.

(** C10: in [InvokeByPortForward], once [Init] has succeeded every return
    path (request construction error, request execution error, response)
    leaves the stop channel of the session open and closes none; [Stop()]
    runs on the path where [Init] fails, and only there. *)
Theorem InvokeByPortForward_stops_only_when_Init_fails :
  forall (E : Env) (pluginID method : string) (data : list Byte.byte)
         (verb : string) (config : restConfig) (client : clientset)
         (app : AppPod) (w : world),
    GetKubeConfigClient E = inl (config, client) ->
    GetAppPod E client pluginID = inl app ->
    NewForConfig E config = None ->
    let made := allocated (newSession config (Namespace app) (PodName app)
                             "127.0.0.1" 0 (HTTPPort app) false) w in
    (forall w2,
        Init E (Some (next w)) made = Returns None w2 ->
        exists r w' s' evs,
          InvokeByPortForward E pluginID method data verb w = Returns r w'
          /\ heap w' = heap w2
          /\ heap w' !! next w = Some s' /\ StopCh s' = chOpen
          /\ log w' = log w ++ evs /\ stopped evs = [])
    /\ (forall err w2,
          Init E (Some (next w)) made = Returns (Some err) w2 ->
          exists w' s' evs,
            InvokeByPortForward E pluginID method data verb w
            = Returns ("", None) w'
            /\ heap w' !! next w = Some s' /\ StopCh s' = chClosed
            /\ log w' = log w ++ evs /\ stopped evs = [Some (next w)]).
Proof.
  intros E pluginID method data verb config client app w Hkube Hpod Hclient made.
  split.
  - intros w2 HI.
    destruct (Init_returns E made w2 (next w) _ HI)
      as (s & s2 & evs & Hs & Hh & Hst & _ & Hlog & Hno & _).
    assert (Hs2 : heap w2 !! next w = Some s2)
      by (rewrite Hh; apply lookup_insert_eq).
    assert (Hopen : StopCh s2 = chOpen).
    { rewrite Hst. unfold made in Hs. simpl in Hs.
      rewrite lookup_insert_eq in Hs. now inversion Hs. }
    rewrite (InvokeByPortForward_Init_ok E pluginID method data verb config
               client app w Hkube Hpod Hclient w2 s2 HI Hs2).
    cbv zeta.
    destruct (NewRequest E verb (makeEndpoint E app s2 method)) as [e|];
      [| destruct (Do E verb (makeEndpoint E app s2 method) data) as [r|e]];
      eexists; eexists; exists s2; eexists;
      (split; [reflexivity |]); (split; [reflexivity |]);
      (split; [exact Hs2 |]); (split; [exact Hopen |]);
      simpl; rewrite Hlog; simpl; rewrite <- app_assoc;
      (split; [reflexivity |]); rewrite stopped_app, Hno; reflexivity.
  - intros err w2 HI.
    destruct (Init_returns E made w2 (next w) _ HI)
      as (s & s2' & evs & Hs & Hh & Hst & _ & Hlog & Hno & _).
    destruct (InvokeByPortForward_Init_failed E pluginID method data verb
                config client app w Hkube Hpod Hclient err w2 HI)
      as (s2 & Hs2 & Hrun).
    rewrite Hrun. eexists; exists (setStopCh chClosed s2); eexists.
    split; [reflexivity |]. split; [apply lookup_insert_eq |].
    split; [reflexivity |]. simpl. rewrite Hlog. simpl. rewrite <- app_assoc.
    split; [reflexivity |]. rewrite stopped_app, Hno. reflexivity.
Qed.

Lemma InvokeByPortForward_stops_only_when_Init_fails_witness :
  (exists r w' s' evs,
      InvokeByPortForward Scenario.healthy "core" "status" [] "GET" emptyWorld
      = Returns r w'
      /\ heap w'
         = heap (stored 0 (setPorts 40123 3500
                             (setReadyCh chClosed Scenario.session))
                   (logged [EvForwardPorts ["127.0.0.1"] ["0:3500"]]
                      Scenario.fresh))
      /\ heap w' !! 0%nat = Some s' /\ StopCh s' = chOpen
      /\ log w' = [] ++ evs /\ stopped evs = [])
  /\ (exists w' s' evs,
        InvokeByPortForward
          (Scenario.cluster None Scenario.dialFailed (inl Scenario.payload)
             Scenario.echo) "core" "status" [] "GET" emptyWorld
        = Returns ("", None) w'
        /\ heap w' !! 0%nat = Some s' /\ StopCh s' = chClosed
        /\ log w' = [] ++ evs /\ stopped evs = [Some 0%nat]).
Proof.
  split.
  - exact (proj1 (InvokeByPortForward_stops_only_when_Init_fails
                    Scenario.healthy "core" "status" [] "GET"
                    (RestConfig "https://10.0.0.1:6443")
                    (Clientset "https://10.0.0.1:6443") Scenario.corePod
                    emptyWorld eq_refl eq_refl eq_refl)
             (stored 0 (setPorts 40123 3500
                          (setReadyCh chClosed Scenario.session))
                (logged [EvForwardPorts ["127.0.0.1"] ["0:3500"]]
                   Scenario.fresh))
             eq_refl).
  - exact (proj2 (InvokeByPortForward_stops_only_when_Init_fails
                    (Scenario.cluster None Scenario.dialFailed
                       (inl Scenario.payload) Scenario.echo)
                    "core" "status" [] "GET"
                    (RestConfig "https://10.0.0.1:6443")
                    (Clientset "https://10.0.0.1:6443") Scenario.corePod
                    emptyWorld eq_refl eq_refl eq_refl)
             (errorString
                "error upgrading connection: dial tcp: connection refused")
             (logged [EvForwardPorts ["127.0.0.1"] ["0:3500"]] Scenario.fresh)
             eq_refl).
Defined.

(** ** The stream relay *)

Section LoopFacts.

Variable E : Env.

(** The receive loop, in closed form. *)
Lemma readLoop_run (fuel n : nat) (w : world) :
  readLoop E fuel n w
  = match firstError E fuel n with
    | Some err =>
        Returns ("", Some (Wrap err "websocket read error"))
          (logged (flat_map frameEvents (delivered E fuel n)) w)
    | None =>
        Running (logged (flat_map frameEvents (delivered E fuel n)) w)
    end.
Proof.
  revert n w. induction fuel as [|fuel IH]; intros n w.
  - simpl. unfold running, logged. rewrite app_nil_r. now destruct w.
  - simpl. destruct (ReadMessage E n) as [[messageType messageData]|err].
    + unfold bind at 1, emit. unfold bind at 1.
      assert (Hk : forall w0,
                 (if messageType =? TextMessage
                  then Println (VString (string_of_list_byte messageData))
                  else if messageType =? BinaryMessage
                       then Println (VBytes messageData)
                       else if messageType =? CloseMessage then ret tt
                            else if messageType =? PingMessage then ret tt
                                 else if messageType =? PongMessage then ret tt
                                      else ret tt) w0
                 = Returns tt
                     (logged match surfaced (messageType, messageData) with
                             | Some v => [EvPrintln v]
                             | None => []
                             end w0)).
      { intros w0. unfold surfaced.
        destruct (messageType =? TextMessage); [reflexivity |].
        destruct (messageType =? BinaryMessage); [reflexivity |].
        assert (Hid : Returns tt w0 = Returns tt (logged [] w0))
          by (unfold logged; rewrite app_nil_r; now destruct w0).
        destruct (messageType =? CloseMessage); [exact Hid |].
        destruct (messageType =? PingMessage); [exact Hid |].
        destruct (messageType =? PongMessage); exact Hid. }
      rewrite Hk, IH, !logged_app.
      destruct (firstError E fuel (S n)); reflexivity.
    + unfold ret, logged. simpl. rewrite app_nil_r. now destruct w.
Qed.

Lemma firstError_None (fuel n : nat) :
  firstError E fuel n = None
  <-> forall j, (j < fuel)%nat -> exists frame, ReadMessage E (n + j) = inl frame.
Proof.
  revert n. induction fuel as [|fuel IH]; intros n; simpl.
  - split; [intros _ j Hj; lia | reflexivity].
  - destruct (ReadMessage E n) as [frame|err] eqn:Hr.
    + rewrite IH. split.
      * intros H [|j] Hj.
        -- rewrite Nat.add_0_r. now exists frame.
        -- replace (n + S j)%nat with (S n + j)%nat by lia. apply H. lia.
      * intros H j Hj. replace (S n + j)%nat with (n + S j)%nat by lia.
        apply H. lia.
    + split; [discriminate |]. intros H.
      destruct (H 0%nat ltac:(lia)) as [frame Hf].
      rewrite Nat.add_0_r, Hr in Hf. discriminate.
Qed.

Lemma firstError_Some (fuel n : nat) (err : error) :
  firstError E fuel n = Some err
  <-> exists k, (k < fuel)%nat
        /\ ReadMessage E (n + k) = inr err
        /\ forall j, (j < k)%nat -> exists frame, ReadMessage E (n + j) = inl frame.
Proof.
  revert n. induction fuel as [|fuel IH]; intros n; simpl.
  - split; [discriminate | intros (k & Hk & _); lia].
  - destruct (ReadMessage E n) as [frame|err'] eqn:Hr.
    + rewrite IH. split.
      * intros (k & Hk & He & Hbefore). exists (S k).
        split; [lia |]. split.
        -- now replace (n + S k)%nat with (S n + k)%nat by lia.
        -- intros [|j] Hj.
           ++ rewrite Nat.add_0_r. now exists frame.
           ++ replace (n + S j)%nat with (S n + j)%nat by lia.
              apply Hbefore. lia.
      * intros ([|k] & Hk & He & Hbefore).
        -- rewrite Nat.add_0_r, Hr in He. discriminate.
        -- exists k. split; [lia |]. split.
           ++ now replace (S n + k)%nat with (n + S k)%nat by lia.
           ++ intros j Hj. replace (S n + j)%nat with (n + S j)%nat by lia.
              apply Hbefore. lia.
    + split.
      * intros H. inversion H; subst. exists 0%nat.
        split; [lia |]. split; [now rewrite Nat.add_0_r |]. intros j Hj; lia.
      * intros ([|k] & Hk & He & Hbefore).
        -- rewrite Nat.add_0_r, Hr in He. now inversion He.
        -- destruct (Hbefore 0%nat ltac:(lia)) as [frame Hf].
           rewrite Nat.add_0_r, Hr in Hf. discriminate.
Qed.

(** What the frames add to the log: the frames themselves, nothing
    written, and one line for each surfaced payload. *)
Lemma frameEvents_log (frames : list (Z * list Byte.byte)) :
  received (flat_map frameEvents frames) = frames
  /\ written (flat_map frameEvents frames) = []
  /\ stopped (flat_map frameEvents frames) = []
  /\ stdout (flat_map frameEvents frames) = omap surfaced frames.
Proof.
  induction frames as [|[kind payload] frames (IH1 & IH2 & IH3 & IH4)];
    [repeat split |].
  unfold received, written, stopped, stdout in *.
  change (flat_map frameEvents ((kind, payload) :: frames))
    with (frameEvents (kind, payload) ++ flat_map frameEvents frames).
  rewrite !omap_app, IH1, IH2, IH3, IH4. unfold frameEvents.
  change (omap surfaced ((kind, payload) :: frames))
    with (match surfaced (kind, payload) with
          | Some v => v :: omap surfaced frames
          | None => omap surfaced frames
          end).
  destruct (surfaced (kind, payload)) as [v|]; repeat split; reflexivity.
Qed.

End LoopFacts.

Section StreamFacts.

Variable E : Env.
Variables (pluginID method : string) (data : list Byte.byte).
Variables (config : restConfig) (client : clientset) (app : AppPod).
Variable w : world.

Hypothesis Hkube : GetKubeConfigClient E = inl (config, client).
Hypothesis Hpod : GetAppPod E client pluginID = inl app.
Hypothesis Hphase : Phase app = PodRunning.
Hypothesis Hclient : NewForConfig E config = None.

(** The world in which [WebsocketByPortForward] calls [Init]. *)
Let made : world :=
  allocated (newSession config (Namespace app) (PodName app)
               "127.0.0.1" 0 (AppPort app) false) w.

Lemma getPortforward_running :
  getPortforward E pluginID w = Returns (Some (next w), None) made.
Proof.
  unfold getPortforward. rewrite Hkube, Hpod, Hphase.
  rewrite String.eqb_refl. change (negb true) with false. cbv iota.
  now rewrite (NewPortForward_ok E) by exact Hclient.
Qed.

(** [Init] failed: nothing is stopped and the caller gets no error. *)
Lemma WebsocketByPortForward_Init_failed (fuel : nat) (err : error) (w2 : world) :
  Init E (Some (next w)) made = Returns (Some err) w2 ->
  WebsocketByPortForward E fuel pluginID method data w = Returns ("", None) w2.
Proof.
  intros HI. unfold WebsocketByPortForward. unfold bind at 1.
  rewrite getPortforward_running. cbv beta iota. unfold bind at 1.
  now rewrite HI.
Qed.

Variables (w2 : world) (s2 : PortForward).
Hypothesis HInit : Init E (Some (next w)) made = Returns None w2.
Hypothesis Hs2 : heap w2 !! next w = Some s2.

Let url : string := makeWsEndpoint s2 method.

(** The deferred calls, on a world that differs from [w2] in its log. *)
Let closed (evs : list event) : world :=
  logged [EvCloseStopCh (Some (next w))]
    (stored (next w) (setStopCh chClosed s2) (logged evs w2)).

Lemma session_open_after_Init : StopCh s2 = chOpen.
Proof.
  destruct (Init_returns E made w2 (next w) _ HInit)
    as (s & s2' & evs & Hs & Hh & Hst & _).
  rewrite Hh, lookup_insert_eq in Hs2. inversion Hs2; subst s2'.
  rewrite Hst. unfold made in Hs. simpl in Hs.
  rewrite lookup_insert_eq in Hs. now inversion Hs.
Qed.

Lemma deferred_Stop (evs : list event) (r : string * option error) :
  (run Stop (Some (next w)); ret r) (logged evs w2) = Returns r (closed evs).
Proof.
  unfold bind.
  rewrite (Stop_open (logged evs w2) (next w) s2);
    [reflexivity | exact Hs2 | exact session_open_after_Init].
Qed.

Lemma WebsocketByPortForward_dial_failed (fuel : nat) (err : error) :
  Dial E url = Some err ->
  WebsocketByPortForward E fuel pluginID method data w
  = Returns ("", Some (Wrap err "connect error"))
      (closed [EvPrintln (VString url); EvDial url; EvPrintln (VError err)]).
Proof.
  intros HD. unfold WebsocketByPortForward. unfold bind at 1.
  rewrite getPortforward_running. cbv beta iota. unfold bind at 1.
  rewrite HInit. cbv beta iota. unfold defer at 1.
  unfold bind at 1. rewrite (load_at _ _ _ Hs2). cbv beta zeta. fold url.
  unfold bind at 1, Println, emit. unfold bind at 1, emit.
  rewrite HD. unfold bind at 1, emit. unfold ret at 1.
  rewrite !logged_app. apply deferred_Stop.
Qed.

Hypothesis HDial : Dial E url = None.

Lemma WebsocketByPortForward_write_failed (fuel : nat) (err : error) :
  WriteMessage E TextMessage data = Some err ->
  WebsocketByPortForward E fuel pluginID method data w
  = Returns ("", Some (Wrap err "websocket write error"))
      (closed [EvPrintln (VString url); EvDial url;
               EvWriteMessage TextMessage data; EvPrintln (VError err);
               EvConnClose; EvBodyClose]).
Proof.
  intros HW. unfold WebsocketByPortForward. unfold bind at 1.
  rewrite getPortforward_running. cbv beta iota. unfold bind at 1.
  rewrite HInit. cbv beta iota. unfold defer at 1.
  unfold bind at 1. rewrite (load_at _ _ _ Hs2). cbv beta zeta. fold url.
  unfold bind at 1, Println, emit. unfold bind at 1, emit.
  rewrite HDial. unfold defer at 1. unfold defer at 1.
  unfold bind at 1, emit. rewrite HW. unfold bind at 1, emit. unfold ret at 1.
  unfold bind at 1, emit. unfold ret at 1. unfold bind at 1, emit. unfold ret at 1.
  rewrite !logged_app. apply deferred_Stop.
Qed.

Hypothesis HWrite : WriteMessage E TextMessage data = None.

Let opened : list event :=
  [EvPrintln (VString url); EvDial url; EvWriteMessage TextMessage data].

(** The stream relay once the payload is written: the loop runs on, or it
    returns the first read error and the deferred calls run. *)
Lemma WebsocketByPortForward_stream (fuel : nat) :
  WebsocketByPortForward E fuel pluginID method data w
  = match firstError E fuel 0 with
    | Some err =>
        Returns ("", Some (Wrap err "websocket read error"))
          (closed (opened ++ flat_map frameEvents (delivered E fuel 0)
                   ++ [EvConnClose; EvBodyClose]))
    | None =>
        Running (logged (opened ++ flat_map frameEvents (delivered E fuel 0)) w2)
    end.
Proof.
  unfold WebsocketByPortForward. unfold bind at 1.
  rewrite getPortforward_running. cbv beta iota. unfold bind at 1.
  rewrite HInit. cbv beta iota. unfold defer at 1.
  unfold bind at 1. rewrite (load_at _ _ _ Hs2). cbv beta zeta. fold url.
  unfold bind at 1, Println, emit. unfold bind at 1, emit.
  rewrite HDial. unfold defer at 1. unfold defer at 1.
  unfold bind at 1, emit. rewrite HWrite, readLoop_run.
  destruct (firstError E fuel 0) as [err|].
  - unfold bind at 1, emit. unfold ret at 1.
    unfold bind at 1, emit. unfold ret at 1.
    rewrite !logged_app. rewrite deferred_Stop. reflexivity.
  - rewrite !logged_app. reflexivity.
Qed.

End StreamFacts.

Lemma log_closed (a : nat) (s : PortForward) (evs : list event) (w : world) :
  log (logged [EvCloseStopCh (Some a)] (stored a s (logged evs w)))
  = log w ++ evs ++ [EvCloseStopCh (Some a)].
Proof. simpl. now rewrite <- app_assoc. Qed.

(** C6: once the stream is connected, the relay writes exactly one frame, a
    text frame with the caller's payload, and it does so before any frame is
    read; when that write succeeds, the lines printed after the target are
    exactly the classified inbound frames: a text payload as a string, a
    binary payload as bytes, and nothing for control frames. *)
Theorem stream_sends_once_then_classifies :
  forall (E : Env) (fuel : nat) (pluginID method : string)
         (data : list Byte.byte) (w w2 : world) (s2 : PortForward),
    connects E pluginID method w w2 s2 ->
    exists evs,
      log (worldOf (WebsocketByPortForward E fuel pluginID method data w))
      = log w2 ++ evs
      /\ written evs = [(TextMessage, data)]
      /\ (exists before after,
            evs = before ++ EvWriteMessage TextMessage data :: after
            /\ received before = [] /\ written after = [])
      /\ (WriteMessage E TextMessage data = None ->
          received evs = delivered E fuel 0
          /\ stdout evs
             = VString (makeWsEndpoint s2 method)
               :: omap surfaced (received evs)).
Proof.
  intros E fuel pluginID method data w w2 s2
    (config & client & app & Hkube & Hpod & Hphase & Hclient & HI & Hs2 & HD).
  set (url := makeWsEndpoint s2 method) in *.
  destruct (frameEvents_log (delivered E fuel 0)) as (Hrecv & Hwr & _ & Hout).
  destruct (WriteMessage E TextMessage data) as [err|] eqn:HW.
  - rewrite (WebsocketByPortForward_write_failed E pluginID method data config
               client app w Hkube Hpod Hphase Hclient w2 s2 HI Hs2 HD fuel err HW).
    unfold worldOf. rewrite log_closed. eexists. split; [reflexivity |].
    split; [reflexivity |]. split; [| discriminate].
    exists [EvPrintln (VString url); EvDial url]. eexists.
    split; [reflexivity |]. split; reflexivity.
  - rewrite (WebsocketByPortForward_stream E pluginID method data config
               client app w Hkube Hpod Hphase Hclient w2 s2 HI Hs2 HD HW fuel).
    destruct (firstError E fuel 0) as [err|].
    + unfold worldOf. rewrite log_closed. eexists. split; [reflexivity |].
      unfold written, received, stdout in *.
      rewrite <- !app_assoc, !omap_app, Hwr, Hrecv, Hout. simpl.
      rewrite !app_nil_r.
      split; [reflexivity |]. split.
      * exists [EvPrintln (VString url); EvDial url]. eexists.
        split; [reflexivity |]. split; [reflexivity |].
        now rewrite !omap_app, Hwr.
      * intros _. split; reflexivity.
    + unfold worldOf. eexists. split; [reflexivity |].
      unfold written, received, stdout in *.
      rewrite !omap_app, Hwr, Hrecv, Hout. simpl.
      split; [reflexivity |]. split.
      * exists [EvPrintln (VString url); EvDial url]. eexists.
        split; [reflexivity |]. split; [reflexivity | exact Hwr].
      * intros _. split; reflexivity.
Qed.

Lemma streaming_connects :
  connects Scenario.streaming "core" "status" emptyWorld Scenario.streamReady
    Scenario.streamBound.
Proof.
  exists (RestConfig "https://10.0.0.1:6443"),
    (Clientset "https://10.0.0.1:6443"), Scenario.corePod.
  repeat split; reflexivity.
Defined.

Lemma stream_sends_once_then_classifies_witness :
  exists evs,
    log (worldOf (WebsocketByPortForward Scenario.streaming 10 "core" "status"
                    Scenario.payload emptyWorld))
    = log Scenario.streamReady ++ evs
    /\ written evs = [(TextMessage, Scenario.payload)]
    /\ (exists before after,
          evs = before ++ EvWriteMessage TextMessage Scenario.payload :: after
          /\ received before = [] /\ written after = [])
    /\ (WriteMessage Scenario.streaming TextMessage Scenario.payload = None ->
        received evs = delivered Scenario.streaming 10 0
        /\ stdout evs
           = VString (makeWsEndpoint Scenario.streamBound "status")
             :: omap surfaced (received evs)).
Proof.
  exact (stream_sends_once_then_classifies Scenario.streaming 10 "core" "status"
           Scenario.payload emptyWorld Scenario.streamReady
           Scenario.streamBound streaming_connects).
Defined.

(** The run of the witness, written out: the payload goes out once, the
    text frame is printed as a string, the binary frame as bytes, the pong
    is read and not printed, and the close ends the loop. *)
Example stream_echo_run :
  let o := WebsocketByPortForward Scenario.streaming 10 "core" "status"
             Scenario.payload emptyWorld in
  returned o
  = Some ("", Some (withMessage (errorString "websocket: close 1000 (normal)")
                      "websocket read error"))
  /\ log (worldOf o)
     = [EvForwardPorts ["127.0.0.1"] ["0:6789"];
        EvPrintln (VString "ws://127.0.0.1:40123/status");
        EvDial "ws://127.0.0.1:40123/status";
        EvWriteMessage 1 Scenario.payload;
        EvReadMessage 1 (list_byte_of_string "hello");
        EvPrintln (VString "hello");
        EvReadMessage 2 [Byte.x01; Byte.x02];
        EvPrintln (VBytes [Byte.x01; Byte.x02]);
        EvReadMessage 10 [];
        EvConnClose; EvBodyClose; EvCloseStopCh (Some 0%nat)].
Proof. split; vm_compute; reflexivity. Qed.

(** C7: the receive loop ends only on a read error.  When
    [WebsocketByPortForward] returns from its loop, some read failed, every
    read before it delivered a frame, and the caller gets that error wrapped
    as "websocket read error"; when a read fails the function does return
    it, given fuel for the reads up to that one; and as long as every read
    delivers a frame the loop is still running. *)
Theorem stream_loop_ends_only_on_read_error :
  forall (E : Env) (pluginID method : string) (data : list Byte.byte)
         (w w2 : world) (s2 : PortForward),
    connects E pluginID method w w2 s2 ->
    WriteMessage E TextMessage data = None ->
    (forall fuel r w',
        WebsocketByPortForward E fuel pluginID method data w = Returns r w' ->
        exists k err,
          (k < fuel)%nat
          /\ ReadMessage E k = inr err
          /\ (forall j, (j < k)%nat -> exists frame, ReadMessage E j = inl frame)
          /\ r = ("", Some (Wrap err "websocket read error")))
    /\ (forall k err,
          ReadMessage E k = inr err ->
          (forall j, (j < k)%nat -> exists frame, ReadMessage E j = inl frame) ->
          forall fuel, (k < fuel)%nat ->
            returned (WebsocketByPortForward E fuel pluginID method data w)
            = Some ("", Some (Wrap err "websocket read error")))
    /\ (forall fuel,
          (forall j, (j < fuel)%nat -> exists frame, ReadMessage E j = inl frame) ->
          exists w',
            WebsocketByPortForward E fuel pluginID method data w = Running w').
Proof.
  intros E pluginID method data w w2 s2
    (config & client & app & Hkube & Hpod & Hphase & Hclient & HI & Hs2 & HD) HW.
  pose proof (WebsocketByPortForward_stream E pluginID method data config
                client app w Hkube Hpod Hphase Hclient w2 s2 HI Hs2 HD HW)
    as Hrun.
  repeat split.
  - intros fuel r w' H. rewrite Hrun in H.
    destruct (firstError E fuel 0) as [err|] eqn:Hfe; [| discriminate].
    apply firstError_Some in Hfe. destruct Hfe as (k & Hk & He & Hbefore).
    exists k, err. simpl in He. repeat split; try assumption.
    now inversion H.
  - intros k err He Hbefore fuel Hk. rewrite Hrun.
    assert (Hfe : firstError E fuel 0 = Some err)
      by (apply firstError_Some; exists k; repeat split; assumption).
    now rewrite Hfe.
  - intros fuel Hall. rewrite Hrun.
    assert (Hfe : firstError E fuel 0 = None)
      by (apply firstError_None; exact Hall).
    rewrite Hfe. eexists. reflexivity.
Qed.

Lemma stream_loop_ends_only_on_read_error_witness :
  returned (WebsocketByPortForward Scenario.streaming 4 "core" "status"
              Scenario.payload emptyWorld)
  = Some ("", Some (Wrap (errorString "websocket: close 1000 (normal)")
                      "websocket read error"))
  /\ exists w',
       WebsocketByPortForward Scenario.streaming 3 "core" "status"
         Scenario.payload emptyWorld = Running w'.
Proof.
  split.
  - refine (proj1 (proj2 (stream_loop_ends_only_on_read_error
              Scenario.streaming "core" "status" Scenario.payload emptyWorld
              Scenario.streamReady Scenario.streamBound
              streaming_connects eq_refl))
              3%nat (errorString "websocket: close 1000 (normal)")
              eq_refl _ 4%nat _); [| lia].
    intros [|[|[|j]]] Hj; [eexists; reflexivity .. | lia].
  - refine (proj2 (proj2 (stream_loop_ends_only_on_read_error
              Scenario.streaming "core" "status" Scenario.payload emptyWorld
              Scenario.streamReady Scenario.streamBound
              streaming_connects eq_refl))
              3%nat _).
    intros [|[|[|j]]] Hj; [eexists; reflexivity .. | lia].
Defined.

(** ** Resolution failures *)

Lemma resolvePod_names_identifier (pods : list AppPod) (client : clientset)
    (identifier : string) (err : error) :
  resolvePod pods client identifier = inr err ->
  Contains (Error err) identifier = true.
Proof.
  unfold resolvePod. destruct (find _ pods); [discriminate |].
  intros H. inversion H; subst. apply Contains_suffix.
Qed.

(** C8: when the identifier does not resolve, or resolves to a pod that is
    not running, [getPortforward] returns an error that contains the
    identifier, and so does [WebsocketByPortForward]; no session is
    allocated and no forwarder is started, the world is left as it was.  A
    failed resolution ends [InvokeByPortForward] and [GetPortforward] in the
    same way. *)
Theorem unresolved_identifier_builds_no_tunnel :
  forall (E : Env) (pluginID : string) (config : restConfig)
         (client : clientset) (w : world),
    namesIdentifier E ->
    GetKubeConfigClient E = inl (config, client) ->
    (forall err,
        GetAppPod E client pluginID = inr err ->
        Contains (Error err) pluginID = true
        /\ getPortforward E pluginID w = Returns (None, Some err) w
        /\ (forall fuel method data,
              WebsocketByPortForward E fuel pluginID method data w
              = Returns ("", Some err) w)
        /\ (forall method data verb,
              InvokeByPortForward E pluginID method data verb w
              = Returns ("", Some err) w)
        /\ (forall options,
              GetPortforward E pluginID options w = Returns (None, Some err) w))
    /\ (forall app,
          GetAppPod E client pluginID = inl app ->
          Phase app <> PodRunning ->
          exists err,
            Contains (Error err) pluginID = true
            /\ getPortforward E pluginID w = Returns (None, Some err) w
            /\ (forall fuel method data,
                  WebsocketByPortForward E fuel pluginID method data w
                  = Returns ("", Some err) w)).
Proof.
  intros E pluginID config client w Hnames Hkube. split.
  - intros err Hpod.
    assert (Hget : getPortforward E pluginID w = Returns (None, Some err) w)
      by (unfold getPortforward; now rewrite Hkube, Hpod).
    split; [apply (Hnames client pluginID err Hpod) |].
    split; [exact Hget |]. split; [| split].
    + intros fuel method data. unfold WebsocketByPortForward, bind.
      now rewrite Hget.
    + intros method data verb. unfold InvokeByPortForward.
      now rewrite Hkube, Hpod.
    + intros options. unfold GetPortforward. now rewrite Hkube, Hpod.
  - intros app Hpod Hphase.
    exists (Errorf "no running pods found for %s" [AString pluginID]).
    assert (Hget : getPortforward E pluginID w
                   = Returns (None, Some (Errorf "no running pods found for %s"
                                            [AString pluginID])) w).
    { unfold getPortforward. rewrite Hkube, Hpod.
      apply String.eqb_neq in Hphase. now rewrite Hphase. }
    split.
    { rewrite Errorf_no_running_pods. apply Contains_suffix. }
    split; [exact Hget |].
    intros fuel method data. unfold WebsocketByPortForward, bind.
    now rewrite Hget.
Qed.

Lemma unresolved_identifier_builds_no_tunnel_witness :
  (Contains "ResolutionError: ghost" "ghost" = true
   /\ getPortforward Scenario.healthy "ghost" emptyWorld
      = Returns (None, Some (errorString "ResolutionError: ghost")) emptyWorld
   /\ (forall fuel method data,
         WebsocketByPortForward Scenario.healthy fuel "ghost" method data
           emptyWorld
         = Returns ("", Some (errorString "ResolutionError: ghost")) emptyWorld)
   /\ (forall method data verb,
         InvokeByPortForward Scenario.healthy "ghost" method data verb
           emptyWorld
         = Returns ("", Some (errorString "ResolutionError: ghost")) emptyWorld)
   /\ (forall options,
         GetPortforward Scenario.healthy "ghost" options emptyWorld
         = Returns (None, Some (errorString "ResolutionError: ghost"))
             emptyWorld))
  /\ exists err,
       Contains (Error err) "rudder" = true
       /\ getPortforward Scenario.healthy "rudder" emptyWorld
          = Returns (None, Some err) emptyWorld
       /\ (forall fuel method data,
             WebsocketByPortForward Scenario.healthy fuel "rudder" method data
               emptyWorld
             = Returns ("", Some err) emptyWorld).
Proof.
  assert (Hnames : namesIdentifier Scenario.healthy).
  { intros client identifier err.
    apply (resolvePod_names_identifier
             [Scenario.corePod; Scenario.pendingPod]). }
  split.
  - exact (proj1 (unresolved_identifier_builds_no_tunnel Scenario.healthy
                    "ghost" (RestConfig "https://10.0.0.1:6443")
                    (Clientset "https://10.0.0.1:6443") emptyWorld
                    Hnames eq_refl)
             (errorString "ResolutionError: ghost") eq_refl).
  - refine (proj2 (unresolved_identifier_builds_no_tunnel Scenario.healthy
                    "rudder" (RestConfig "https://10.0.0.1:6443")
                    (Clientset "https://10.0.0.1:6443") emptyWorld
                    Hnames eq_refl)
             Scenario.pendingPod eq_refl _).
    discriminate.
Defined.

(** The request relay does not look at the pod's phase: for the pod that is
    still pending it makes the session and starts the forwarder. *)
Example InvokeByPortForward_pending_pod :
  forwarded (log (worldOf (InvokeByPortForward Scenario.healthy "rudder"
                             "status" [] "GET" emptyWorld)))
  = [(["127.0.0.1"], ["0:3500"])].
Proof. vm_compute. reflexivity. Qed.


(** * Further properties of the package *)

(** ** Labelled errors *)

Lemma append_cons (c : ascii) (s t : string) :
  String c s +:+ t = String c (s +:+ t).
Proof. reflexivity. Qed.

(** Text without a verb is copied by the formatting loop. *)
Lemma doPrintf_plain (wrapErrs : bool) (label rest : string) (args : list arg) :
  noPercent label = true ->
  doPrintf wrapErrs (label +:+ rest) args
  = (label +:+ fst (doPrintf wrapErrs rest args),
     snd (doPrintf wrapErrs rest args)).
Proof.
  induction label as [|c label IH]; intros Hl.
  - change ("" +:+ rest) with rest.
    now destruct (doPrintf wrapErrs rest args).
  - simpl in Hl. apply andb_true_iff in Hl. destruct Hl as [Hc Hl].
    apply negb_true_iff in Hc. rewrite append_cons. simpl doPrintf.
    rewrite Hc, (IH Hl). reflexivity.
Qed.

(** [fmt.Errorf("<label>%w", err)]: the message is the label followed by
    the cause's message, and the cause is kept for [errors.Unwrap]. *)
Lemma Errorf_label (label : string) (err : error) :
  noPercent label = true ->
  Errorf (label +:+ "%w") [AError err] = wrapError (label +:+ Error err) err.
Proof.
  intros Hl. unfold Errorf. rewrite (doPrintf_plain true label "%w" _ Hl).
  simpl. unfold printArg; simpl. now rewrite append_empty.
Qed.

(** Rewrites [Errorf "<label>%w" [AError err]] in the goal. *)
Ltac labelled l err :=
  let H := fresh "Hlabel" in
  pose proof (Errorf_label l err eq_refl) as H;
  let lit := eval cbv in (l +:+ "%w") in
  change (l +:+ "%w") with lit in H;
  rewrite H; clear H.

(** ** Rules for [touchesOnly] and [returnsOnly] *)

Lemma touches_ret {A} (p : ptr) (a : A) : touchesOnly p (ret a).
Proof.
  intros w. simpl. repeat split. exists []. now rewrite app_nil_r.
Qed.

Lemma touches_panic {A} (p : ptr) (msg : string) : touchesOnly p (@panic A msg).
Proof.
  intros w. simpl. repeat split. exists []. now rewrite app_nil_r.
Qed.

Lemma touches_block {A} (p : ptr) : touchesOnly p (@block A).
Proof.
  intros w. simpl. repeat split. exists []. now rewrite app_nil_r.
Qed.

Lemma touches_running {A} (p : ptr) : touchesOnly p (@running A).
Proof.
  intros w. simpl. repeat split. exists []. now rewrite app_nil_r.
Qed.

Lemma touches_emit (p : ptr) (e : event) : touchesOnly p (emit e).
Proof. intros w. simpl. repeat split. now exists [e]. Qed.

Lemma touches_Println (p : ptr) (v : value) : touchesOnly p (Println v).
Proof. apply touches_emit. Qed.

Lemma touches_load (p q : ptr) : touchesOnly p (load q).
Proof.
  intros w. unfold load. destruct q as [a|]; [destruct (heap w !! a) |];
    simpl; repeat split; exists []; now rewrite app_nil_r.
Qed.

Lemma touches_bind {A B} (p : ptr) (m : M A) (k : A -> M B) :
  touchesOnly p m -> (forall a, touchesOnly p (k a)) -> touchesOnly p (bind m k).
Proof.
  intros Hm Hk w. unfold bind. specialize (Hm w).
  destruct (m w) as [a w1|msg w1|w1|w1]; simpl in Hm; try exact Hm.
  destruct Hm as (Hn & Hh & evs & Hl).
  destruct (Hk a w1) as (Hn' & Hh' & evs' & Hl').
  split; [congruence |]. split.
  - intros b Hb. rewrite (Hh' b Hb). apply (Hh b Hb).
  - exists (evs ++ evs'). rewrite Hl', Hl. now rewrite app_assoc.
Qed.

Lemma touches_defer {A} (p : ptr) (cleanup : M unit) (body : M A) :
  touchesOnly p cleanup -> touchesOnly p body -> touchesOnly p (defer cleanup body).
Proof.
  intros Hc Hb w. unfold defer. specialize (Hb w).
  destruct (body w) as [a w1|msg w1|w1|w1]; simpl in Hb; try exact Hb.
  - destruct Hb as (Hn & Hh & evs & Hl).
    destruct (touches_bind p cleanup (fun _ => ret a) Hc
                (fun _ => touches_ret p a) w1) as (Hn' & Hh' & evs' & Hl').
    split; [congruence |]. split.
    + intros b Hb. rewrite (Hh' b Hb). apply (Hh b Hb).
    + exists (evs ++ evs'). rewrite Hl', Hl. now rewrite app_assoc.
  - destruct Hb as (Hn & Hh & evs & Hl).
    destruct (touches_bind p cleanup (fun _ => @panic A msg) Hc
                (fun _ => @touches_panic A p msg) w1) as (Hn' & Hh' & evs' & Hl').
    split; [congruence |]. split.
    + intros b Hb. rewrite (Hh' b Hb). apply (Hh b Hb).
    + exists (evs ++ evs'). rewrite Hl', Hl. now rewrite app_assoc.
Qed.

Lemma touches_update (p : ptr) (f : PortForward -> PortForward) :
  touchesOnly p (update p f).
Proof.
  intros w. unfold update, bind, load.
  destruct p as [a|]; [destruct (heap w !! a) as [s|] |]; simpl.
  - split; [reflexivity |]. split.
    + intros b Hb. apply lookup_insert_ne. congruence.
    + exists []. now rewrite app_nil_r.
  - repeat split. exists []. now rewrite app_nil_r.
  - repeat split. exists []. now rewrite app_nil_r.
Qed.

Lemma returns_ret {A} (P : A -> Prop) (a : A) : P a -> returnsOnly P (ret a).
Proof. intros H w a' w' Hr. inversion Hr; now subst. Qed.

Lemma returns_panic {A} (P : A -> Prop) (msg : string) :
  returnsOnly P (@panic A msg).
Proof. intros w a w' Hr. discriminate. Qed.

Lemma returns_block {A} (P : A -> Prop) : returnsOnly P (@block A).
Proof. intros w a w' Hr. discriminate. Qed.

Lemma returns_running {A} (P : A -> Prop) : returnsOnly P (@running A).
Proof. intros w a w' Hr. discriminate. Qed.

Lemma returns_bind {A B} (P : B -> Prop) (m : M A) (k : A -> M B) :
  (forall a, returnsOnly P (k a)) -> returnsOnly P (bind m k).
Proof.
  intros Hk w b w' Hr. unfold bind in Hr.
  destruct (m w) as [a w1|msg w1|w1|w1]; try discriminate.
  apply (Hk a w1 b w' Hr).
Qed.

Lemma returns_defer {A} (P : A -> Prop) (cleanup : M unit) (body : M A) :
  returnsOnly P body -> returnsOnly P (defer cleanup body).
Proof.
  intros Hb w a w' Hr. unfold defer in Hr.
  destruct (body w) as [a1 w1|msg w1|w1|w1] eqn:Hbody; try discriminate.
  - unfold bind, ret in Hr.
    destruct (cleanup w1) as [[] w2|msg w2|w2|w2]; try discriminate.
    inversion Hr; subst. apply (Hb w a w1 Hbody).
  - unfold bind, panic in Hr.
    destruct (cleanup w1) as [[] w2|msg' w2|w2|w2]; discriminate.
Qed.

Ltac touches :=
  repeat first
    [ apply touches_ret | apply touches_panic | apply touches_block
    | apply touches_running | apply touches_emit | apply touches_Println
    | apply touches_load | apply touches_update | apply touches_defer
    | apply touches_bind; [| intro]
    | match goal with
      | |- touchesOnly _ (match ?x with _ => _ end) => destruct x
      | |- touchesOnly _ (if ?x then _ else _) => destruct x
      | |- touchesOnly _ (let _ := _ in _) => cbv zeta
      end ].

Ltac returns :=
  repeat first
    [ apply returns_panic | apply returns_block | apply returns_running
    | apply returns_defer
    | apply returns_bind; intro
    | match goal with
      | |- returnsOnly _ (match ?x with _ => _ end) => destruct x
      | |- returnsOnly _ (if ?x then _ else _) => destruct x
      | |- returnsOnly _ (let _ := _ in _) => cbv zeta
      end ].

Lemma touches_Stop (p : ptr) : touchesOnly p (Stop p).
Proof. unfold Stop. touches. Qed.

Lemma touches_GetStop (p : ptr) : touchesOnly p (GetStop p).
Proof. unfold GetStop. touches. Qed.

Lemma touches_Init (E : Env) (p : ptr) : touchesOnly p (Init E p).
Proof. unfold Init. touches. Qed.

Lemma touches_readLoop (E : Env) (p : ptr) (fuel n : nat) :
  touchesOnly p (readLoop E fuel n).
Proof.
  revert n. induction fuel as [|fuel IH]; intros n; simpl; [touches |].
  destruct (ReadMessage E n) as [[messageType messageData]|err]; [| touches].
  apply touches_bind; [touches | intros _].
  apply touches_bind; [touches | intros _]. apply IH.
Qed.

Lemma touches_option (p : ptr) (o : optionName) (app : AppPod) :
  touchesOnly p (optionOf o p app).
Proof. destruct o; simpl; unfold WithHTTPPort, WithAppPort, WithAppPod; touches. Qed.

Lemma returns_readLoop (E : Env) (fuel n : nat) :
  returnsOnly (fun r => fst r = "" /\ snd r <> None) (readLoop E fuel n).
Proof.
  intros w r w' Hr. rewrite readLoop_run in Hr.
  destruct (firstError E fuel n); [| discriminate].
  inversion Hr; subst. split; [reflexivity | discriminate].
Qed.

Lemma handleResponse_emptyOnError (response : Response) :
  emptyOnError (handleResponse response).
Proof.
  unfold emptyOnError, handleResponse.
  destruct (Body response) as [rb|err]; [| reflexivity].
  destruct (0 <? len rb); simpl; [intros H; now elim H | reflexivity].
Qed.

Ltac touches_all :=
  repeat first
    [ apply touches_Init | apply touches_Stop | apply touches_GetStop
    | apply touches_readLoop | apply touches_option
    | apply touches_ret | apply touches_panic | apply touches_block
    | apply touches_running | apply touches_emit | apply touches_Println
    | apply touches_load | apply touches_update | apply touches_defer
    | apply touches_bind; [| intro]
    | match goal with
      | |- touchesOnly _ (match ?x with _ => _ end) => destruct x
      | |- touchesOnly _ (if ?x then _ else _) => destruct x
      | |- touchesOnly _ (let _ := _ in _) => cbv zeta
      end ].

Lemma returns_weaken {A} (P Q : A -> Prop) (m : M A) :
  (forall a, P a -> Q a) -> returnsOnly P m -> returnsOnly Q m.
Proof. intros HPQ Hm w a w' Hr. apply HPQ, (Hm w a w' Hr). Qed.

Lemma returns_NewPortForward_bind {B} (P : B -> Prop) (E : Env)
    (config : restConfig) (namespace podName host : string)
    (localPort remotePort : Z) (emitLogs : bool)
    (k : ptr * option error -> M B) :
  (forall err, returnsOnly P (k (None, Some err))) ->
  (forall a, returnsOnly P (k (Some a, None))) ->
  returnsOnly P
    (bind (NewPortForward E config namespace podName host localPort remotePort
             emitLogs) k).
Proof.
  intros Herr Hok w b w' Hr. unfold bind, NewPortForward in Hr.
  destruct (NewForConfig E config) as [err|].
  - apply (Herr _ _ _ _ Hr).
  - simpl in Hr. apply (Hok _ _ _ _ Hr).
Qed.

Lemma keeps_of_touches {A} (m : M A) : touchesOnly None m -> keepsSessions m.
Proof.
  intros Hm w Hwf. destruct (Hm w) as (Hn & Hh & Hlog).
  split; [| split; [| split]].
  - intros b Hb. rewrite Hh by discriminate. apply Hwf. lia.
  - lia.
  - intros b s Hs. now rewrite Hh by discriminate.
  - exact Hlog.
Qed.

Lemma keeps_NewPortForward_bind {B} (E : Env)
    (config : restConfig) (namespace podName host : string)
    (localPort remotePort : Z) (emitLogs : bool)
    (k : ptr * option error -> M B) :
  (forall p err, touchesOnly p (k (p, err))) ->
  keepsSessions
    (bind (NewPortForward E config namespace podName host localPort remotePort
             emitLogs) k).
Proof.
  intros Hk w Hwf. unfold bind, NewPortForward.
  destruct (NewForConfig E config) as [err|].
  - apply (keeps_of_touches _ (Hk None _) w Hwf).
  - simpl.
    set (w1 := allocated (newSession config namespace podName host localPort
                            remotePort emitLogs) w).
    destruct (Hk (Some (next w)) None w1) as (Hn & Hh & evs & Hlog).
    assert (Hfree : heap w !! next w = None) by (apply Hwf; lia).
    split; [| split; [| split]].
    + intros b Hb. rewrite Hn in Hb. simpl in Hb.
      rewrite Hh by (intros Heq; inversion Heq; lia).
      simpl. rewrite lookup_insert_ne by lia. apply Hwf. lia.
    + rewrite Hn. simpl. lia.
    + intros b s Hs.
      assert (Hne : b <> next w) by (intros ->; congruence).
      rewrite Hh by (intros Heq; inversion Heq; congruence).
      simpl. now rewrite lookup_insert_ne by congruence.
    + exists evs. exact Hlog.
Qed.

(** ** What the package never does to other sessions *)

Lemma applyOptions_touches (opts : list optionName) (p : ptr) (app : AppPod) :
  touchesOnly p (applyOptions (map optionOf opts) p app).
Proof.
  induction opts as [|o opts IH]; simpl; [touches_all |].
  apply touches_bind; [apply touches_option | intros r].
  destruct r; [touches_all | exact IH].
Qed.

(** X1: however they end, the two relays and the session constructors
    allocate at most one session (at the next free address) and leave every
    session that already existed exactly as it was; the free addresses stay
    free and the log only grows. *)
Theorem package_keeps_existing_sessions :
  forall (E : Env),
    (forall pluginID method data verb,
        keepsSessions (InvokeByPortForward E pluginID method data verb))
    /\ (forall fuel pluginID method data,
          keepsSessions (WebsocketByPortForward E fuel pluginID method data))
    /\ (forall pluginID, keepsSessions (getPortforward E pluginID))
    /\ (forall name namespace port,
          keepsSessions (GetPodPortForward E name namespace port))
    /\ (forall appName opts,
          keepsSessions (GetPortforward E appName (map optionOf opts))).
Proof.
  intros E. split; [| split; [| split; [| split]]].
  - intros pluginID method data verb. unfold InvokeByPortForward.
    destruct (GetKubeConfigClient E) as [[config client]|err];
      [| apply keeps_of_touches; touches_all].
    destruct (GetAppPod E client pluginID) as [app|err];
      [| apply keeps_of_touches; touches_all].
    apply keeps_NewPortForward_bind. intros p err. touches_all.
  - intros fuel pluginID method data. unfold WebsocketByPortForward, getPortforward.
    destruct (GetKubeConfigClient E) as [[config client]|err].
    2:{ apply keeps_of_touches. touches_all. }
    destruct (GetAppPod E client pluginID) as [app|err].
    2:{ apply keeps_of_touches. touches_all. }
    destruct (negb (Phase app =? PodRunning)%string).
    { apply keeps_of_touches. touches_all. }
    apply keeps_NewPortForward_bind. intros p err. touches_all.
  - intros pluginID. unfold getPortforward.
    destruct (GetKubeConfigClient E) as [[config client]|err];
      [| apply keeps_of_touches; touches_all].
    destruct (GetAppPod E client pluginID) as [app|err];
      [| apply keeps_of_touches; touches_all].
    destruct (negb (Phase app =? PodRunning)%string);
      [apply keeps_of_touches; touches_all |].
    intros w Hwf.
    pose proof (keeps_NewPortForward_bind E config (Namespace app) (PodName app)
                  "127.0.0.1" 0 (AppPort app) false ret
                  (fun p err => touches_ret p (p, err)) w Hwf) as H.
    unfold bind in H. unfold ret in H.
    destruct (NewPortForward E config (Namespace app) (PodName app)
                "127.0.0.1" 0 (AppPort app) false w); exact H.
  - intros name namespace port. unfold GetPodPortForward.
    destruct (GetKubeConfigClient E) as [[config client]|err];
      [| apply keeps_of_touches; touches_all].
    apply keeps_NewPortForward_bind. intros p err. touches_all.
  - intros appName opts. unfold GetPortforward.
    destruct (GetKubeConfigClient E) as [[config client]|err];
      [| apply keeps_of_touches; touches_all].
    destruct (GetAppPod E client appName) as [app|err];
      [| apply keeps_of_touches; touches_all].
    apply keeps_NewPortForward_bind. intros p err.
    destruct err; [touches_all | apply applyOptions_touches].
Qed.

Lemma busy_wf : wfWorld Fixture.busy.
Proof.
  intros b Hb. simpl in *. apply lookup_insert_None.
  split; [apply lookup_empty | lia].
Defined.

Lemma package_keeps_existing_sessions_witness :
  let w' := worldOf (InvokeByPortForward Scenario.healthy "core" "status" []
                       "GET" Fixture.busy) in
  wfWorld w'
  /\ (1 <= next w' <= 2)%nat
  /\ (forall b s, heap Fixture.busy !! b = Some s -> heap w' !! b = Some s)
  /\ exists evs, log w' = log Fixture.busy ++ evs.
Proof.
  exact (proj1 (package_keeps_existing_sessions Scenario.healthy)
           "core" "status" [] "GET" Fixture.busy busy_wf).
Defined.

(** ** The shape of the results *)

Ltac pair_shape :=
  unfold emptyOnError; simpl; intros H; first [reflexivity | now elim H].

(** X2: a non-nil error always comes with the empty string, from [invoke],
    [Invoke] and every return of [InvokeByPortForward]; and
    [WebsocketByPortForward] returns the empty string on every return,
    error or not: what it receives is only printed. *)
Theorem relays_return_empty_string_with_errors :
  forall (E : Env),
    (forall app method data verb, emptyOnError (invoke E app method data verb))
    /\ (forall pluginID method data verb,
          emptyOnError (Invoke E pluginID method data verb))
    /\ (forall pluginID method data verb,
          returnsOnly emptyOnError
            (InvokeByPortForward E pluginID method data verb))
    /\ (forall fuel pluginID method data,
          returnsOnly (fun r => fst r = "")
            (WebsocketByPortForward E fuel pluginID method data)).
Proof.
  intros E.
  assert (Hinvoke : forall app method data verb,
             emptyOnError (invoke E app method data verb)).
  { intros app method data verb. unfold invoke.
    destruct (AppRequest E app verb method data); [pair_shape |].
    destruct (Raw E app verb method data) as [rb|err]; [| pair_shape].
    destruct (0 <? len rb); pair_shape. }
  split; [exact Hinvoke |]. split; [| split].
  - intros pluginID method data verb. unfold Invoke.
    destruct (Client E) as [client|err]; [| pair_shape].
    destruct (GetAppPod E client pluginID) as [app|err]; [| pair_shape].
    apply Hinvoke.
  - intros pluginID method data verb. unfold InvokeByPortForward.
    returns;
      try (apply returns_ret; first
             [ apply handleResponse_emptyOnError | pair_shape ]).
  - intros fuel pluginID method data. unfold WebsocketByPortForward.
    returns; try (apply returns_ret; reflexivity).
    eapply returns_weaken; [| apply returns_readLoop].
    intros r [Hr _]. exact Hr.
Qed.

Lemma relays_return_empty_string_with_errors_witness :
  fst ("", Some (Errorf "error do http request: %w" [AError Fixture.boom])) = ""
  /\ fst ("", Some (Wrap (errorString "websocket: close 1000 (normal)")
                      "websocket read error")) = "".
Proof.
  split.
  - exact (proj1 (proj2 (proj2 (relays_return_empty_string_with_errors
              (Fixture.failing Scenario.healthy Fixture.AtDo Fixture.boom))))
             "core" "status" [] "GET" emptyWorld _ _ eq_refl
             ltac:(discriminate)).
  - exact (proj2 (proj2 (proj2 (relays_return_empty_string_with_errors
              Scenario.streaming)))
             10%nat "core" "status" Scenario.payload emptyWorld _ _ eq_refl).
Defined.

(** X3: the constructors return a Go result pair: whenever [NewPortForward],
    [getPortforward], [GetPodPortForward] or [GetPortforward] (with any
    options) returns, the pointer is nil exactly when the error is not. *)
Theorem constructors_return_pointer_or_error :
  forall (E : Env),
    (forall config namespace podName host localPort remotePort emitLogs,
        returnsOnly pointerOrError
          (NewPortForward E config namespace podName host localPort remotePort
             emitLogs))
    /\ (forall pluginID, returnsOnly pointerOrError (getPortforward E pluginID))
    /\ (forall name namespace port,
          returnsOnly pointerOrError (GetPodPortForward E name namespace port))
    /\ (forall appName options,
          returnsOnly pointerOrError (GetPortforward E appName options)).
Proof.
  intros E.
  assert (Hnil : forall err : error, pointerOrError (None, Some err))
    by (intros err; split; [discriminate | reflexivity]).
  assert (Hptr : forall a : nat, pointerOrError (Some a, None))
    by (intros a; split; [discriminate | intros H; now elim H]).
  assert (Hnew : forall config namespace podName host localPort remotePort
                        emitLogs,
             returnsOnly pointerOrError
               (NewPortForward E config namespace podName host localPort
                  remotePort emitLogs)).
  { intros config namespace podName host localPort remotePort emitLogs
      w r w' Hr.
    unfold NewPortForward in Hr. destruct (NewForConfig E config).
    - inversion Hr; subst. apply Hnil.
    - inversion Hr; subst. apply Hptr. }
  split; [exact Hnew |]. split; [| split].
  - intros pluginID. unfold getPortforward.
    destruct (GetKubeConfigClient E) as [[config client]|err];
      [| apply returns_ret, Hnil].
    destruct (GetAppPod E client pluginID) as [app|err];
      [| apply returns_ret, Hnil].
    destruct (negb (Phase app =? PodRunning)%string);
      [apply returns_ret, Hnil | apply Hnew].
  - intros name namespace port. unfold GetPodPortForward.
    destruct (GetKubeConfigClient E) as [[config client]|err];
      [| apply returns_ret, Hnil].
    apply returns_NewPortForward_bind; intros; apply returns_ret; auto.
  - intros appName options. unfold GetPortforward.
    destruct (GetKubeConfigClient E) as [[config client]|err];
      [| apply returns_ret, Hnil].
    destruct (GetAppPod E client appName) as [app|err];
      [| apply returns_ret, Hnil].
    apply returns_NewPortForward_bind; [intros; apply returns_ret, Hnil |].
    intros a. induction options as [|o options IH]; simpl.
    + apply returns_ret, Hptr.
    + apply returns_bind. intros [err|]; [apply returns_ret, Hnil | exact IH].
Qed.

Lemma constructors_return_pointer_or_error_witness :
  pointerOrError (Some 0%nat, None)
  /\ pointerOrError
       (None, Some (Errorf "no running pods found for %s" [AString "rudder"])).
Proof.
  split.
  - exact (proj2 (proj2 (proj2 (constructors_return_pointer_or_error
              Scenario.healthy)))
             "core" [WithAppPort; WithAppPod] emptyWorld _ _ eq_refl).
  - exact (proj1 (proj2 (constructors_return_pointer_or_error
              Scenario.healthy))
             "rudder" emptyWorld _ _ eq_refl).
Defined.

(** ** More on Init, Stop and GetStop *)

(** X4: when the round tripper or the forwarder cannot be built, [Init]
    returns the cause wrapped under the stage's label, the cause stays
    reachable through [errors.Unwrap], and nothing has happened: the
    forwarder was not started and the world is as it was. *)
Theorem Init_setup_errors_are_labelled :
  forall (E : Env) (w : world) (a : nat) (s : PortForward) (err : error),
    heap w !! a = Some s ->
    (RoundTripperFor E (Config s) = Some err ->
     exists e,
       Init E (Some a) w = Returns (Some e) w
       /\ Error e = "error creat spdy round tripper: " +:+ Error err
       /\ Unwrap e = Some err)
    /\ (RoundTripperFor E (Config s) = None ->
        NewOnAddresses E [Host s] (portSpec s) = Some err ->
        exists e,
          Init E (Some a) w = Returns (Some e) w
          /\ Error e = "error creat portforward: " +:+ Error err
          /\ Unwrap e = Some err).
Proof.
  intros E w a s err Hs. split.
  - intros H. eexists. split; [apply (Init_no_round_tripper E w a s Hs err H) |].
    labelled "error creat spdy round tripper: " err.
    split; reflexivity.
  - intros H1 H2. eexists.
    split; [apply (Init_no_forwarder E w a s Hs err H1 H2) |].
    labelled "error creat portforward: " err.
    split; reflexivity.
Qed.

Lemma Init_setup_errors_are_labelled_witness :
  (exists e,
      Init (Scenario.cluster (Some Fixture.boom) Scenario.bound
              (inl Scenario.payload) Scenario.echo) (Some 0%nat) Scenario.fresh
      = Returns (Some e) Scenario.fresh
      /\ Error e = "error creat spdy round tripper: " +:+ Error Fixture.boom
      /\ Unwrap e = Some Fixture.boom)
  /\ (exists e,
        Init (Fixture.failing Scenario.healthy Fixture.AtNewOnAddresses Fixture.boom)
          (Some 0%nat) Scenario.fresh
        = Returns (Some e) Scenario.fresh
        /\ Error e = "error creat portforward: " +:+ Error Fixture.boom
        /\ Unwrap e = Some Fixture.boom).
Proof.
  split.
  - exact (proj1 (Init_setup_errors_are_labelled
                    (Scenario.cluster (Some Fixture.boom) Scenario.bound
                       (inl Scenario.payload) Scenario.echo)
                    Scenario.fresh 0 Scenario.session Fixture.boom eq_refl)
             eq_refl).
  - exact (proj2 (Init_setup_errors_are_labelled
                    (Fixture.failing Scenario.healthy Fixture.AtNewOnAddresses Fixture.boom)
                    Scenario.fresh 0 Scenario.session Fixture.boom eq_refl)
             eq_refl eq_refl).
Defined.

(** The ports slice is the decimal local port, a colon and the decimal
    remote port. *)
Lemma portSpec_decimal (s : PortForward) :
  portSpec s = [itoa (LocalPort s) +:+ ":" +:+ itoa (RemotePort s)].
Proof.
  unfold portSpec, Sprintf; simpl. unfold printArg; simpl.
  now rewrite append_empty.
Qed.

(** X5: however [Init] ends on a session, all it can have changed of that
    session is the two ports and the ready channel: the stop channel, the
    target and the other fields are as before and no stop channel was
    closed.  When it returns an error, the session is wholly unchanged. *)
Theorem Init_changes_only_ports_and_ready :
  forall (E : Env) (w : world) (a : nat) (s : PortForward),
    heap w !! a = Some s ->
    exists s' evs,
      heap (worldOf (Init E (Some a) w)) = <[a := s']> (heap w)
      /\ log (worldOf (Init E (Some a) w)) = log w ++ evs
      /\ stopped evs = []
      /\ StopCh s' = StopCh s /\ Config s' = Config s /\ Method s' = Method s
      /\ URL s' = URL s /\ Host s' = Host s /\ EmitLogs s' = EmitLogs s
      /\ App s' = App s
      /\ (forall err,
            returned (Init E (Some a) w) = Some (Some err) -> s' = s).
Proof.
  intros E w a s Hs.
  assert (Hsame : forall evs,
             stopped evs = [] ->
             forall o : outcome (option error),
               worldOf o = logged evs w ->
               (forall err, returned o = Some (Some err) -> s = s) ->
               exists s' evs',
                 heap (worldOf o) = <[a := s']> (heap w)
                 /\ log (worldOf o) = log w ++ evs'
                 /\ stopped evs' = []
                 /\ StopCh s' = StopCh s /\ Config s' = Config s
                 /\ Method s' = Method s /\ URL s' = URL s /\ Host s' = Host s
                 /\ EmitLogs s' = EmitLogs s /\ App s' = App s
                 /\ (forall err, returned o = Some (Some err) -> s' = s)).
  { intros evs Hevs o Ho _. exists s, evs. rewrite Ho. simpl.
    rewrite insert_id by exact Hs. repeat split; try reflexivity. exact Hevs. }
  destruct (RoundTripperFor E (Config s)) as [e|] eqn:H1.
  { rewrite (Init_no_round_tripper E w a s Hs e H1).
    apply (Hsame [] eq_refl); [| reflexivity].
    simpl. unfold logged. rewrite app_nil_r. now destruct w. }
  destruct (NewOnAddresses E [Host s] (portSpec s)) as [e|] eqn:H2.
  { rewrite (Init_no_forwarder E w a s Hs e H1 H2).
    apply (Hsame [] eq_refl); [| reflexivity].
    simpl. unfold logged. rewrite app_nil_r. now destruct w. }
  assert (Hsel : reachesSelect E s) by (split; assumption).
  destruct (ForwardPorts E [Host s] (portSpec s)) as [[[|p0 rest]|e]|e|] eqn:H3.
  - rewrite (Init_select E w a s Hs Hsel), H3. unfold bind.
    rewrite (update_at _ a s) by exact Hs. simpl.
    exists (setReadyCh chClosed s), [EvForwardPorts [Host s] (portSpec s)].
    repeat split; try reflexivity. discriminate.
  - rewrite (Init_ready_ports E w a s Hs Hsel p0 rest H3).
    exists (setPorts (Local p0) (Remote p0) (setReadyCh chClosed s)),
      [EvForwardPorts [Host s] (portSpec s)].
    repeat split; try reflexivity. discriminate.
  - rewrite (Init_ready_unread E w a s Hs Hsel e H3).
    exists (setReadyCh chClosed s), [EvForwardPorts [Host s] (portSpec s)].
    repeat split; try reflexivity. discriminate.
  - rewrite (Init_failure_first E w a s Hs Hsel e H3).
    apply (Hsame [EvForwardPorts [Host s] (portSpec s)] eq_refl);
      reflexivity.
  - rewrite (Init_neither E w a s Hs Hsel H3).
    apply (Hsame [EvForwardPorts [Host s] (portSpec s)] eq_refl);
      [reflexivity | discriminate].
Qed.

Lemma Init_changes_only_ports_and_ready_witness :
  exists s' evs,
    heap (worldOf (Init Scenario.healthy (Some 0%nat) Scenario.fresh))
    = <[0%nat := s']> (heap Scenario.fresh)
    /\ log (worldOf (Init Scenario.healthy (Some 0%nat) Scenario.fresh))
       = log Scenario.fresh ++ evs
    /\ stopped evs = []
    /\ StopCh s' = StopCh Scenario.session
    /\ Config s' = Config Scenario.session
    /\ Method s' = Method Scenario.session
    /\ URL s' = URL Scenario.session /\ Host s' = Host Scenario.session
    /\ EmitLogs s' = EmitLogs Scenario.session
    /\ App s' = App Scenario.session
    /\ (forall err,
          returned (Init Scenario.healthy (Some 0%nat) Scenario.fresh)
          = Some (Some err) -> s' = Scenario.session).
Proof.
  exact (Init_changes_only_ports_and_ready Scenario.healthy Scenario.fresh 0
           Scenario.session eq_refl).
Defined.

(** X6: [Init] reads [ports[0]] without looking at the length: when the
    ready signal fires and [fw.GetPorts()] returns no error and an empty
    slice, [Init] panics with an index error after the forwarder was
    started, and the session keeps its ports. *)
Theorem Init_panics_on_empty_ports :
  forall (E : Env) (w : world) (a : nat) (s : PortForward),
    heap w !! a = Some s ->
    reachesSelect E s ->
    ForwardPorts E [Host s] (portSpec s) = ReadyFirst (inl []) ->
    Init E (Some a) w
    = Panics "index out of range [0] with length 0"
        (stored a (setReadyCh chClosed s)
           (logged [EvForwardPorts [Host s] (portSpec s)] w)).
Proof.
  intros E w a s Hs Hsel H. rewrite (Init_select E w a s Hs Hsel), H.
  unfold bind. now rewrite (update_at _ a s) by exact Hs.
Qed.

Lemma Init_panics_on_empty_ports_witness :
  Init (Scenario.cluster None (ReadyFirst (inl [])) (inl Scenario.payload)
          Scenario.echo) (Some 0%nat) Scenario.fresh
  = Panics "index out of range [0] with length 0"
      (stored 0 (setReadyCh chClosed Scenario.session)
         (logged [EvForwardPorts [Host Scenario.session]
                    (portSpec Scenario.session)] Scenario.fresh)).
Proof.
  exact (Init_panics_on_empty_ports
           (Scenario.cluster None (ReadyFirst (inl [])) (inl Scenario.payload)
              Scenario.echo)
           Scenario.fresh 0 Scenario.session eq_refl (conj eq_refl eq_refl)
           eq_refl).
Defined.

(** X7: however [Init] ends, it starts the forwarding loop at most once, and
    exactly when the round tripper and the forwarder were built; the loop is
    then asked for the session's host and for the one port pair
    [<LocalPort>:<RemotePort>] in decimal, so a session made with local
    port 0 asks for ["0:<remote>"]. *)
Theorem Init_starts_forwarder_on_stored_ports :
  forall (E : Env) (w : world) (a : nat) (s : PortForward),
    heap w !! a = Some s ->
    exists evs,
      log (worldOf (Init E (Some a) w)) = log w ++ evs
      /\ (reachesSelect E s ->
          forwarded evs
          = [([Host s], [itoa (LocalPort s) +:+ ":" +:+ itoa (RemotePort s)])])
      /\ (~ reachesSelect E s -> evs = []).
Proof.
  intros E w a s Hs.
  destruct (RoundTripperFor E (Config s)) as [e|] eqn:H1.
  { rewrite (Init_no_round_tripper E w a s Hs e H1). exists [].
    simpl. rewrite app_nil_r. split; [reflexivity |]. split; [| reflexivity].
    intros [H _]. congruence. }
  destruct (NewOnAddresses E [Host s] (portSpec s)) as [e|] eqn:H2.
  { rewrite (Init_no_forwarder E w a s Hs e H1 H2). exists [].
    simpl. rewrite app_nil_r. split; [reflexivity |]. split; [| reflexivity].
    intros [_ H]. congruence. }
  assert (Hsel : reachesSelect E s) by (split; assumption).
  exists [EvForwardPorts [Host s] (portSpec s)].
  split; [| split; [intros _; now rewrite portSpec_decimal | intros H; now elim H]].
  destruct (ForwardPorts E [Host s] (portSpec s)) as [[[|p0 rest]|e]|e|] eqn:H3.
  - now rewrite (Init_panics_on_empty_ports E w a s Hs Hsel H3).
  - now rewrite (Init_ready_ports E w a s Hs Hsel p0 rest H3).
  - now rewrite (Init_ready_unread E w a s Hs Hsel e H3).
  - now rewrite (Init_failure_first E w a s Hs Hsel e H3).
  - now rewrite (Init_neither E w a s Hs Hsel H3).
Qed.

Lemma Init_starts_forwarder_on_stored_ports_witness :
  exists evs,
    log (worldOf (Init Scenario.healthy (Some 0%nat) Scenario.fresh))
    = log Scenario.fresh ++ evs
    /\ (reachesSelect Scenario.healthy Scenario.session ->
        forwarded evs
        = [([Host Scenario.session],
            [itoa (LocalPort Scenario.session) +:+ ":"
             +:+ itoa (RemotePort Scenario.session)])])
    /\ (~ reachesSelect Scenario.healthy Scenario.session -> evs = []).
Proof.
  exact (Init_starts_forwarder_on_stored_ports Scenario.healthy Scenario.fresh
           0 Scenario.session eq_refl).
Defined.

Example healthy_forwarder_request :
  forwarded (log (worldOf (Init Scenario.healthy (Some 0%nat) Scenario.fresh)))
  = [(["127.0.0.1"], ["0:3500"])].
Proof. vm_compute. reflexivity. Qed.

(** X8: [GetStop] hands out the session's stop channel as it is: open on a
    session nobody stopped, closed after [Stop], and the same before and
    after [Init].  [Stop] changes nothing but that channel: the ports, the
    ready channel and every other session stay as they were. *)
Theorem GetStop_reports_Stop :
  forall (E : Env) (w : world) (a : nat) (s : PortForward),
    heap w !! a = Some s ->
    GetStop (Some a) w = Returns (StopCh s) w
    /\ (StopCh s = chOpen ->
        exists w1 s1,
          Stop (Some a) w = Returns tt w1
          /\ GetStop (Some a) w1 = Returns chClosed w1
          /\ heap w1 !! a = Some s1
          /\ LocalPort s1 = LocalPort s /\ RemotePort s1 = RemotePort s
          /\ ReadyCh s1 = ReadyCh s /\ App s1 = App s
          /\ (forall b, b <> a -> heap w1 !! b = heap w !! b))
    /\ (forall r w2,
          Init E (Some a) w = Returns r w2 ->
          GetStop (Some a) w2 = Returns (StopCh s) w2).
Proof.
  intros E w a s Hs.
  assert (Hget : forall w0 s0,
             heap w0 !! a = Some s0 ->
             GetStop (Some a) w0 = Returns (StopCh s0) w0).
  { intros w0 s0 H0. unfold GetStop, bind. now rewrite (load_at _ _ _ H0). }
  split; [apply (Hget w s Hs) |]. split.
  - intros Ho. eexists. exists (setStopCh chClosed s).
    split; [apply (Stop_open w a s Hs Ho) |].
    split; [apply (Hget _ (setStopCh chClosed s)), lookup_insert_eq |].
    split; [apply lookup_insert_eq |]. repeat split.
    intros b Hb. simpl. now rewrite lookup_insert_ne by congruence.
  - intros r w2 HI.
    destruct (Init_returns E w w2 a r HI)
      as (s0 & s2 & evs & Hs0 & Hh & Hst & _).
    rewrite Hs in Hs0. inversion Hs0; subst s0.
    rewrite <- Hst. apply Hget. rewrite Hh. apply lookup_insert_eq.
Qed.

Lemma GetStop_reports_Stop_witness :
  GetStop (Some 0%nat) Scenario.fresh = Returns chOpen Scenario.fresh
  /\ (exists w1 s1,
        Stop (Some 0%nat) Scenario.fresh = Returns tt w1
        /\ GetStop (Some 0%nat) w1 = Returns chClosed w1
        /\ heap w1 !! 0%nat = Some s1
        /\ LocalPort s1 = 0 /\ RemotePort s1 = 3500
        /\ ReadyCh s1 = chOpen /\ App s1 = None
        /\ (forall b, b <> 0%nat -> heap w1 !! b = heap Scenario.fresh !! b))
  /\ GetStop (Some 0%nat)
       (worldOf (Init Scenario.healthy (Some 0%nat) Scenario.fresh))
     = Returns chOpen
         (worldOf (Init Scenario.healthy (Some 0%nat) Scenario.fresh)).
Proof.
  pose proof (GetStop_reports_Stop Scenario.healthy Scenario.fresh 0
                Scenario.session eq_refl) as (H1 & H2 & H3).
  split; [exact H1 |]. split; [exact (H2 eq_refl) |].
  exact (H3 None _ eq_refl).
Defined.

(** ** The options of GetPortforward *)

Lemma stored_same (w : world) (a : nat) (s : PortForward) :
  heap w !! a = Some s -> stored a s w = w.
Proof.
  intros H. destruct w as [h n l]. unfold stored. simpl in *.
  now rewrite insert_id.
Qed.

Lemma stored_allocated (w : world) (s0 s1 : PortForward) :
  stored (next w) s1 (allocated s0 w) = allocated s1 w.
Proof. unfold stored, allocated. simpl. now rewrite insert_insert_eq. Qed.

Lemma option_run (o : optionName) (app : AppPod) (w : world) (a : nat)
    (s : PortForward) :
  heap w !! a = Some s ->
  optionOf o (Some a) app w = Returns None (stored a (configureOne app s o) w).
Proof.
  intros Hs.
  destruct o; simpl; unfold WithHTTPPort, WithAppPort, WithAppPod, bind;
    rewrite ?(load_at _ _ _ Hs), (update_at _ _ _ _ Hs); reflexivity.
Qed.

(** The named options at the head of the list have run, in order, when the
    rest is reached. *)
Lemma applyOptions_app (pre : list optionName)
    (rest : list PortForwardConfigureOption) (app : AppPod) (a : nat) :
  forall (w : world) (s : PortForward),
    heap w !! a = Some s ->
    applyOptions (map optionOf pre ++ rest) (Some a) app w
    = applyOptions rest (Some a) app (stored a (configured pre app s) w).
Proof.
  induction pre as [|o pre IH]; intros w s Hs.
  - simpl. now rewrite (stored_same _ _ _ Hs).
  - simpl. unfold bind. rewrite (option_run o app w a s Hs).
    rewrite (IH _ (configureOne app s o)) by apply stored_lookup.
    now rewrite stored_stored.
Qed.

Section Configured.

Variable app : AppPod.

Lemma configured_keeps (opts : list optionName) :
  forall s,
    LocalPort (configured opts app s) = LocalPort s
    /\ Host (configured opts app s) = Host s
    /\ StopCh (configured opts app s) = StopCh s
    /\ ReadyCh (configured opts app s) = ReadyCh s
    /\ URL (configured opts app s) = URL s
    /\ RemotePort (configured opts app s)
       = remotePortAfter opts app (RemotePort s).
Proof.
  induction opts as [|o opts IH]; intros s; [repeat split |].
  unfold configured, remotePortAfter in *. simpl.
  destruct (IH (configureOne app s o)) as (H1 & H2 & H3 & H4 & H5 & H6).
  rewrite H1, H2, H3, H4, H5, H6. destruct o; repeat split.
Qed.

Lemma configured_App (opts : list optionName) :
  forall s,
    (In OptAppPod opts -> App (configured opts app s) = Some app)
    /\ (~ In OptAppPod opts -> App (configured opts app s) = App s).
Proof.
  induction opts as [|o opts IH]; intros s.
  - split; [intros [] | reflexivity].
  - unfold configured in *. simpl.
    destruct (IH (configureOne app s o)) as [Hin Hout]. split.
    + intros [-> | H]; [| exact (Hin H)].
      destruct (in_dec (fun x y : optionName =>
                          ltac:(decide equality) : {x = y} + {x <> y})
                  OptAppPod opts) as [H|H];
        [exact (Hin H) | now rewrite (Hout H)].
    + intros H. rewrite Hout by (intros H'; apply H; now right).
      destruct o; try reflexivity. elim H. now left.
Qed.

(** The last port option decides the remote port. *)
Lemma remotePortAfter_last (pre post : list optionName) (o : optionName) (r0 : Z) :
  (forall x, In x post -> x = OptAppPod) ->
  remotePortAfter (pre ++ o :: post) app r0
  = match o with
    | OptHTTPPort => HTTPPort app
    | OptAppPort => AppPort app
    | OptAppPod => remotePortAfter pre app r0
    end.
Proof.
  intros Hpost. unfold remotePortAfter. rewrite fold_left_app. simpl.
  set (r1 := match o with
             | OptHTTPPort => HTTPPort app
             | OptAppPort => AppPort app
             | OptAppPod => _
             end).
  clearbody r1. revert r1.
  induction post as [|x post IH]; intros r1; [reflexivity |].
  simpl. rewrite (Hpost x) by now left. apply IH.
  intros y Hy. apply Hpost. now right.
Qed.

End Configured.

(** X9: [GetPortforward] with any list of the package's three options
    succeeds once the pod resolves and the session is made.  The options act
    from left to right on the new session: the local port stays 0 and both
    channels stay open, the remote port is the pod's HTTP port unless a port
    option is given, in which case the last one decides, and the pod is
    attached exactly when [WithAppPod] is among the options. *)
Theorem GetPortforward_named_options :
  forall (E : Env) (appName : string) (opts : list optionName)
         (config : restConfig) (client : clientset) (app : AppPod) (w : world),
    GetKubeConfigClient E = inl (config, client) ->
    GetAppPod E client appName = inl app ->
    NewForConfig E config = None ->
    let s' := configured opts app
                (newSession config (Namespace app) (PodName app)
                   "127.0.0.1" 0 (HTTPPort app) false) in
    GetPortforward E appName (map optionOf opts) w
    = Returns (Some (next w), None) (allocated s' w)
    /\ LocalPort s' = 0 /\ Host s' = "127.0.0.1"
    /\ StopCh s' = chOpen /\ ReadyCh s' = chOpen
    /\ (opts = [] -> RemotePort s' = HTTPPort app)
    /\ (forall pre post,
          opts = pre ++ OptAppPort :: post ->
          (forall x, In x post -> x = OptAppPod) ->
          RemotePort s' = AppPort app)
    /\ (forall pre post,
          opts = pre ++ OptHTTPPort :: post ->
          (forall x, In x post -> x = OptAppPod) ->
          RemotePort s' = HTTPPort app)
    /\ (In OptAppPod opts -> App s' = Some app)
    /\ (~ In OptAppPod opts -> App s' = None).
Proof.
  intros E appName opts config client app w Hkube Hpod Hclient s'.
  set (s0 := newSession config (Namespace app) (PodName app)
               "127.0.0.1" 0 (HTTPPort app) false) in *.
  destruct (configured_keeps app opts s0) as (H1 & H2 & H3 & H4 & _ & H6).
  destruct (configured_App app opts s0) as [Hin Hout].
  split.
  { unfold GetPortforward. rewrite Hkube, Hpod. unfold bind.
    rewrite (NewPortForward_ok E) by exact Hclient. cbv beta iota.
    rewrite <- (app_nil_r (map optionOf opts)).
    rewrite (applyOptions_app opts [] app (next w) _ s0)
      by apply lookup_insert_eq.
    simpl. unfold ret. now rewrite stored_allocated. }
  split; [exact H1 |]. split; [exact H2 |]. split; [exact H3 |].
  split; [exact H4 |]. split; [| split; [| split; [| split]]].
  - intros ->. reflexivity.
  - intros pre post -> Hpost. unfold s'. rewrite H6.
    now rewrite (remotePortAfter_last app pre post OptAppPort _ Hpost).
  - intros pre post -> Hpost. unfold s'. rewrite H6.
    now rewrite (remotePortAfter_last app pre post OptHTTPPort _ Hpost).
  - exact Hin.
  - exact Hout.
Qed.

Lemma GetPortforward_named_options_witness :
  let s' := configured [OptHTTPPort; OptAppPort; OptAppPod] Scenario.corePod
              Scenario.session in
  GetPortforward Scenario.healthy "core" [WithHTTPPort; WithAppPort; WithAppPod]
    emptyWorld
  = Returns (Some 0%nat, None) (allocated s' emptyWorld)
  /\ LocalPort s' = 0 /\ RemotePort s' = 6789
  /\ App s' = Some Scenario.corePod.
Proof.
  pose proof (GetPortforward_named_options Scenario.healthy "core"
                [OptHTTPPort; OptAppPort; OptAppPod]
                (RestConfig "https://10.0.0.1:6443")
                (Clientset "https://10.0.0.1:6443") Scenario.corePod emptyWorld
                eq_refl eq_refl eq_refl)
    as (H1 & H2 & _ & _ & _ & _ & H3 & _ & H4 & _).
  split; [exact H1 |]. split; [exact H2 |]. split.
  - refine (H3 [OptHTTPPort] [OptAppPod] eq_refl _).
    intros x [<- | []]. reflexivity.
  - apply H4. right. right. now left.
Defined.

(** X10: the options run in order and the first one that fails ends
    [GetPortforward]: the caller gets a nil pointer and the cause under the
    label "set portforward options failed", the options after it never run
    and nothing is released: the world is as the failing option left it, so
    when that option changes nothing the session is still allocated as the
    options before it configured it, with its stop channel open. *)
Theorem GetPortforward_stops_at_failing_option :
  forall (E : Env) (appName : string) (pre : list optionName)
         (bad : PortForwardConfigureOption)
         (post : list PortForwardConfigureOption)
         (config : restConfig) (client : clientset) (app : AppPod)
         (w w2 : world) (err : error),
    GetKubeConfigClient E = inl (config, client) ->
    GetAppPod E client appName = inl app ->
    NewForConfig E config = None ->
    let s1 := configured pre app
                (newSession config (Namespace app) (PodName app)
                   "127.0.0.1" 0 (HTTPPort app) false) in
    bad (Some (next w)) app (allocated s1 w) = Returns (Some err) w2 ->
    exists e,
      GetPortforward E appName (map optionOf pre ++ bad :: post) w
      = Returns (None, Some e) w2
      /\ Error e = "set portforward options failed: " +:+ Error err
      /\ Unwrap e = Some err
      /\ (w2 = allocated s1 w ->
          heap w2 !! next w = Some s1 /\ StopCh s1 = chOpen).
Proof.
  intros E appName pre bad post config client app w w2 err
    Hkube Hpod Hclient s1 Hbad.
  set (s0 := newSession config (Namespace app) (PodName app)
               "127.0.0.1" 0 (HTTPPort app) false) in *.
  destruct (configured_keeps app pre s0) as (_ & _ & H3 & _).
  eexists. split.
  { unfold GetPortforward. rewrite Hkube, Hpod. unfold bind.
    rewrite (NewPortForward_ok E) by exact Hclient. cbv beta iota.
    rewrite (applyOptions_app pre (bad :: post) app (next w) _ s0)
      by apply lookup_insert_eq.
    rewrite stored_allocated. simpl. unfold bind. fold s1. rewrite Hbad.
    reflexivity. }
  labelled "set portforward options failed: " err.
  split; [reflexivity |]. split; [reflexivity |].
  intros ->. split; [apply lookup_insert_eq | exact H3].
Qed.

Lemma GetPortforward_stops_at_failing_option_witness :
  exists e,
    GetPortforward Scenario.healthy "core"
      (map optionOf [OptAppPort]
       ++ (fun _ _ => ret (Some Fixture.boom)) :: [WithHTTPPort]) emptyWorld
    = Returns (None, Some e)
        (allocated (configured [OptAppPort] Scenario.corePod Scenario.session)
           emptyWorld)
    /\ Error e = "set portforward options failed: " +:+ Error Fixture.boom
    /\ Unwrap e = Some Fixture.boom
    /\ heap (allocated (configured [OptAppPort] Scenario.corePod
                          Scenario.session) emptyWorld) !! 0%nat
       = Some (configured [OptAppPort] Scenario.corePod Scenario.session)
    /\ StopCh (configured [OptAppPort] Scenario.corePod Scenario.session)
       = chOpen.
Proof.
  destruct (GetPortforward_stops_at_failing_option Scenario.healthy "core"
              [OptAppPort] (fun _ _ => ret (Some Fixture.boom)) [WithHTTPPort]
              (RestConfig "https://10.0.0.1:6443")
              (Clientset "https://10.0.0.1:6443") Scenario.corePod emptyWorld _
              Fixture.boom eq_refl eq_refl eq_refl eq_refl)
    as (e & H1 & H2 & H3 & H4).
  exists e. split; [exact H1 |]. split; [exact H2 |]. split; [exact H3 |].
  exact (H4 eq_refl).
Defined.

(** ** Failures of the request relay *)

(** X11: after a successful [Init] the request relay fails in three ways,
    each returned under its own label with the cause kept: a request that
    cannot be built (nothing is sent), a request that cannot be executed
    (no body to close) and a body that cannot be read (the body is closed).
    Otherwise exactly one request is sent, with the caller's verb and
    payload and the JSON content type, the body is closed, and the result
    is the body whatever the status code. *)
Theorem request_relay_failures_are_labelled :
  forall (E : Env) (pluginID method : string) (data : list Byte.byte)
         (verb : string) (config : restConfig) (client : clientset)
         (app : AppPod) (w w2 : world) (s2 : PortForward),
    GetKubeConfigClient E = inl (config, client) ->
    GetAppPod E client pluginID = inl app ->
    NewForConfig E config = None ->
    Init E (Some (next w))
      (allocated (newSession config (Namespace app) (PodName app)
                    "127.0.0.1" 0 (HTTPPort app) false) w)
    = Returns None w2 ->
    heap w2 !! next w = Some s2 ->
    let url := makeEndpoint E app s2 method in
    let res := InvokeByPortForward E pluginID method data verb w in
    (forall err,
        NewRequest E verb url = Some err ->
        exists e,
          res = Returns ("", Some e) (logged [EvPrintln (VString url)] w2)
          /\ Error e = "error creat http request: " +:+ Error err
          /\ Unwrap e = Some err)
    /\ (forall err,
          NewRequest E verb url = None ->
          Do E verb url data = inr err ->
          exists e,
            res = Returns ("", Some e)
                    (logged [EvPrintln (VString url);
                             EvHTTPDo verb url data "application/json"] w2)
            /\ Error e = "error do http request: " +:+ Error err
            /\ Unwrap e = Some err)
    /\ (forall r err,
          NewRequest E verb url = None ->
          Do E verb url data = inl r ->
          Body r = inr err ->
          exists e,
            res = Returns ("", Some e)
                    (logged [EvPrintln (VString url);
                             EvHTTPDo verb url data "application/json";
                             EvBodyClose] w2)
            /\ Error e = "error read http response: " +:+ Error err
            /\ Unwrap e = Some err)
    /\ (forall r rb,
          NewRequest E verb url = None ->
          Do E verb url data = inl r ->
          Body r = inl rb ->
          res = Returns (string_of_list_byte rb, None)
                  (logged [EvPrintln (VString url);
                           EvHTTPDo verb url data "application/json";
                           EvBodyClose] w2)).
Proof.
  intros E pluginID method data verb config client app w w2 s2
    Hkube Hpod Hclient HI Hs2 url res.
  pose proof (InvokeByPortForward_Init_ok E pluginID method data verb config
                client app w Hkube Hpod Hclient w2 s2 HI Hs2) as Hrun.
  cbv zeta in Hrun. fold url in Hrun. fold res in Hrun.
  split; [| split; [| split]].
  - intros err Hreq. rewrite Hreq in Hrun. eexists. split; [exact Hrun |].
    labelled "error creat http request: " err. split; reflexivity.
  - intros err Hreq Hdo. rewrite Hreq, Hdo in Hrun.
    eexists. split; [exact Hrun |].
    labelled "error do http request: " err. split; reflexivity.
  - intros r err Hreq Hdo Hbody. rewrite Hreq, Hdo in Hrun.
    unfold handleResponse in Hrun. rewrite Hbody in Hrun.
    eexists. split; [exact Hrun |].
    labelled "error read http response: " err. split; reflexivity.
  - intros r rb Hreq Hdo Hbody. rewrite Hreq, Hdo in Hrun.
    now rewrite (handleResponse_body _ _ Hbody) in Hrun.
Qed.

Lemma request_relay_failures_are_labelled_witness :
  (exists e,
      InvokeByPortForward (Fixture.failing Scenario.healthy Fixture.AtNewRequest Fixture.boom)
        "core" "status" [] "GET" emptyWorld
      = Returns ("", Some e)
          (logged [EvPrintln (VString
                     "http://127.0.0.1:40123/v1/invoke/core/method/status")]
             Fixture.requestReady)
      /\ Error e = "error creat http request: " +:+ Error Fixture.boom
      /\ Unwrap e = Some Fixture.boom)
  /\ (exists e,
        InvokeByPortForward (Fixture.failing Scenario.healthy Fixture.AtBody Fixture.boom)
          "core" "status" [] "GET" emptyWorld
        = Returns ("", Some e)
            (logged [EvPrintln (VString
                       "http://127.0.0.1:40123/v1/invoke/core/method/status");
                     EvHTTPDo "GET"
                       "http://127.0.0.1:40123/v1/invoke/core/method/status"
                       [] "application/json";
                     EvBodyClose] Fixture.requestReady)
        /\ Error e = "error read http response: " +:+ Error Fixture.boom
        /\ Unwrap e = Some Fixture.boom).
Proof.
  split.
  - exact (proj1 (request_relay_failures_are_labelled
                    (Fixture.failing Scenario.healthy Fixture.AtNewRequest Fixture.boom)
                    "core" "status" [] "GET"
                    (RestConfig "https://10.0.0.1:6443")
                    (Clientset "https://10.0.0.1:6443") Scenario.corePod
                    emptyWorld Fixture.requestReady Fixture.requestBound
                    eq_refl eq_refl eq_refl eq_refl eq_refl)
             Fixture.boom eq_refl).
  - exact (proj1 (proj2 (proj2 (request_relay_failures_are_labelled
                    (Fixture.failing Scenario.healthy Fixture.AtBody Fixture.boom)
                    "core" "status" [] "GET"
                    (RestConfig "https://10.0.0.1:6443")
                    (Clientset "https://10.0.0.1:6443") Scenario.corePod
                    emptyWorld Fixture.requestReady Fixture.requestBound
                    eq_refl eq_refl eq_refl eq_refl eq_refl)))
             {| StatusCode := 200; Body := inr Fixture.boom |} Fixture.boom
             eq_refl eq_refl eq_refl).
Defined.

(** ** Failures and teardown of the stream relay *)

Lemma Wrap_message (err : error) (message : string) :
  Error (Wrap err message) = message +:+ ": " +:+ Error err
  /\ Unwrap (Wrap err message) = Some err.
Proof. split; reflexivity. Qed.

(** X12: after a successful [Init] a failing dial is printed and returned
    as "connect error: <cause>" with nothing written and no connection to
    close; a failing write is printed and returned as
    "websocket write error: <cause>" with nothing read.  Both times the
    deferred [Stop] runs last. *)
Theorem stream_relay_failures_are_labelled :
  forall (E : Env) (fuel : nat) (pluginID method : string)
         (data : list Byte.byte) (config : restConfig) (client : clientset)
         (app : AppPod) (w w2 : world) (s2 : PortForward),
    GetKubeConfigClient E = inl (config, client) ->
    GetAppPod E client pluginID = inl app ->
    Phase app = PodRunning ->
    NewForConfig E config = None ->
    Init E (Some (next w))
      (allocated (newSession config (Namespace app) (PodName app)
                    "127.0.0.1" 0 (AppPort app) false) w)
    = Returns None w2 ->
    heap w2 !! next w = Some s2 ->
    let url := makeWsEndpoint s2 method in
    let res := WebsocketByPortForward E fuel pluginID method data w in
    (forall err,
        Dial E url = Some err ->
        exists e,
          returned res = Some ("", Some e)
          /\ Error e = "connect error: " +:+ Error err
          /\ Unwrap e = Some err
          /\ log (worldOf res)
             = log w2 ++ [EvPrintln (VString url); EvDial url;
                          EvPrintln (VError err);
                          EvCloseStopCh (Some (next w))])
    /\ (forall err,
          Dial E url = None ->
          WriteMessage E TextMessage data = Some err ->
          exists e,
            returned res = Some ("", Some e)
            /\ Error e = "websocket write error: " +:+ Error err
            /\ Unwrap e = Some err
            /\ log (worldOf res)
               = log w2 ++ [EvPrintln (VString url); EvDial url;
                            EvWriteMessage TextMessage data;
                            EvPrintln (VError err);
                            EvConnClose; EvBodyClose;
                            EvCloseStopCh (Some (next w))]).
Proof.
  intros E fuel pluginID method data config client app w w2 s2
    Hkube Hpod Hphase Hclient HI Hs2 url res.
  split.
  - intros err HD. unfold res.
    rewrite (WebsocketByPortForward_dial_failed E pluginID method data config
               client app w Hkube Hpod Hphase Hclient w2 s2 HI Hs2 fuel err HD).
    eexists. split; [reflexivity |]. split; [reflexivity |].
    split; [reflexivity |]. unfold worldOf. now rewrite log_closed.
  - intros err HD HW. unfold res.
    rewrite (WebsocketByPortForward_write_failed E pluginID method data config
               client app w Hkube Hpod Hphase Hclient w2 s2 HI Hs2 HD fuel err
               HW).
    eexists. split; [reflexivity |]. split; [reflexivity |].
    split; [reflexivity |]. unfold worldOf. now rewrite log_closed.
Qed.

Lemma stream_relay_failures_are_labelled_witness :
  (exists e,
      returned (WebsocketByPortForward
                  (Fixture.failing Scenario.streaming Fixture.AtDial Fixture.boom) 5 "core"
                  "status" Scenario.payload emptyWorld)
      = Some ("", Some e)
      /\ Error e = "connect error: " +:+ Error Fixture.boom
      /\ Unwrap e = Some Fixture.boom
      /\ log (worldOf (WebsocketByPortForward
                         (Fixture.failing Scenario.streaming Fixture.AtDial Fixture.boom) 5 "core"
                         "status" Scenario.payload emptyWorld))
         = log (stored 0 (setPorts 40123 6789
                            (setReadyCh chClosed Scenario.streamSession))
                  (logged [EvForwardPorts ["127.0.0.1"] ["0:6789"]]
                     (allocated Scenario.streamSession emptyWorld)))
           ++ [EvPrintln (VString "ws://127.0.0.1:40123/status");
               EvDial "ws://127.0.0.1:40123/status";
               EvPrintln (VError Fixture.boom);
               EvCloseStopCh (Some 0%nat)])
  /\ (exists e,
        returned (WebsocketByPortForward
                    (Fixture.failing Scenario.streaming Fixture.AtWrite Fixture.boom) 5 "core"
                    "status" Scenario.payload emptyWorld)
        = Some ("", Some e)
        /\ Error e = "websocket write error: " +:+ Error Fixture.boom
        /\ Unwrap e = Some Fixture.boom
        /\ log (worldOf (WebsocketByPortForward
                           (Fixture.failing Scenario.streaming Fixture.AtWrite Fixture.boom) 5
                           "core" "status" Scenario.payload emptyWorld))
           = log (stored 0 (setPorts 40123 6789
                              (setReadyCh chClosed Scenario.streamSession))
                    (logged [EvForwardPorts ["127.0.0.1"] ["0:6789"]]
                       (allocated Scenario.streamSession emptyWorld)))
             ++ [EvPrintln (VString "ws://127.0.0.1:40123/status");
                 EvDial "ws://127.0.0.1:40123/status";
                 EvWriteMessage TextMessage Scenario.payload;
                 EvPrintln (VError Fixture.boom);
                 EvConnClose; EvBodyClose;
                 EvCloseStopCh (Some 0%nat)]).
Proof.
  split.
  - exact (proj1 (stream_relay_failures_are_labelled
                    (Fixture.failing Scenario.streaming Fixture.AtDial Fixture.boom) 5
                    "core" "status" Scenario.payload
                    (RestConfig "https://10.0.0.1:6443")
                    (Clientset "https://10.0.0.1:6443") Scenario.corePod
                    emptyWorld _
                    (setPorts 40123 6789
                       (setReadyCh chClosed Scenario.streamSession))
                    eq_refl eq_refl eq_refl eq_refl eq_refl eq_refl)
             Fixture.boom eq_refl).
  - exact (proj2 (stream_relay_failures_are_labelled
                    (Fixture.failing Scenario.streaming Fixture.AtWrite Fixture.boom) 5
                    "core" "status" Scenario.payload
                    (RestConfig "https://10.0.0.1:6443")
                    (Clientset "https://10.0.0.1:6443") Scenario.corePod
                    emptyWorld _
                    (setPorts 40123 6789
                       (setReadyCh chClosed Scenario.streamSession))
                    eq_refl eq_refl eq_refl eq_refl eq_refl eq_refl)
             Fixture.boom eq_refl eq_refl).
Defined.

(** X13: once [Init] has succeeded, every return of
    [WebsocketByPortForward] has closed the session's stop channel, exactly
    once and as its last action; a connection that was dialled is closed
    first, then the handshake body, then the tunnel.  While the loop is
    still reading, nothing has been closed. *)
Theorem stream_relay_tears_down_on_return :
  forall (E : Env) (fuel : nat) (pluginID method : string)
         (data : list Byte.byte) (config : restConfig) (client : clientset)
         (app : AppPod) (w w2 : world) (s2 : PortForward),
    GetKubeConfigClient E = inl (config, client) ->
    GetAppPod E client pluginID = inl app ->
    Phase app = PodRunning ->
    NewForConfig E config = None ->
    Init E (Some (next w))
      (allocated (newSession config (Namespace app) (PodName app)
                    "127.0.0.1" 0 (AppPort app) false) w)
    = Returns None w2 ->
    heap w2 !! next w = Some s2 ->
    let res := WebsocketByPortForward E fuel pluginID method data w in
    (forall r w',
        res = Returns r w' ->
        exists evs,
          log w' = log w2 ++ evs ++ [EvCloseStopCh (Some (next w))]
          /\ stopped evs = []
          /\ heap w' !! next w = Some (setStopCh chClosed s2)
          /\ (Dial E (makeWsEndpoint s2 method) = None ->
              exists before,
                evs = before ++ [EvConnClose; EvBodyClose])
          /\ (Dial E (makeWsEndpoint s2 method) <> None ->
              ~ In EvConnClose evs /\ ~ In EvBodyClose evs))
    /\ (forall w',
          res = Running w' ->
          heap w' = heap w2
          /\ exists evs,
               log w' = log w2 ++ evs
               /\ stopped evs = []
               /\ ~ In EvConnClose evs /\ ~ In EvBodyClose evs).
Proof.
  intros E fuel pluginID method data config client app w w2 s2
    Hkube Hpod Hphase Hclient HI Hs2 res.
  set (url := makeWsEndpoint s2 method).
  destruct (frameEvents_log (delivered E fuel 0)) as (_ & _ & Hst & _).
  assert (Hnoclose : forall frames,
             ~ In EvConnClose (flat_map frameEvents frames)
             /\ ~ In EvBodyClose (flat_map frameEvents frames)).
  { induction frames as [|f frames [IH1 IH2]]; [split; intros [] |].
    change (flat_map frameEvents (f :: frames))
      with (frameEvents f ++ flat_map frameEvents frames).
    split; intros H; apply in_app_or in H; destruct H as [H|H]; auto;
      unfold frameEvents in H; destruct (surfaced f); simpl in H;
      repeat (destruct H as [H|H]; [discriminate |]); exact H. }
  destruct (Dial E url) as [derr|] eqn:HD.
  - unfold res.
    rewrite (WebsocketByPortForward_dial_failed E pluginID method data config
               client app w Hkube Hpod Hphase Hclient w2 s2 HI Hs2 fuel derr HD).
    split; [| intros w' H; discriminate].
    intros r w' H. inversion H; subst. eexists.
    split; [apply log_closed |]. split; [reflexivity |].
    split; [apply lookup_insert_eq |]. split; [intros H0; discriminate |].
    intros _. fold url. simpl. split; intros H0;
      repeat (destruct H0 as [H0|H0]; [discriminate |]); exact H0.
  - destruct (WriteMessage E TextMessage data) as [werr|] eqn:HW.
    + unfold res.
      rewrite (WebsocketByPortForward_write_failed E pluginID method data
                 config client app w Hkube Hpod Hphase Hclient w2 s2 HI Hs2 HD
                 fuel werr HW).
      split; [| intros w' H; discriminate].
      intros r w' H. inversion H; subst. eexists.
      split; [apply log_closed |]. split; [reflexivity |].
      split; [apply lookup_insert_eq |]. split; [| intros H0; now elim H0].
      intros _. fold url.
      now exists [EvPrintln (VString url); EvDial url;
                  EvWriteMessage TextMessage data; EvPrintln (VError werr)].
    + unfold res.
      rewrite (WebsocketByPortForward_stream E pluginID method data config
                 client app w Hkube Hpod Hphase Hclient w2 s2 HI Hs2 HD HW fuel).
      fold url. destruct (firstError E fuel 0) as [rerr|].
      * split; [| intros w' H; discriminate].
        intros r w' H. inversion H; subst. eexists.
        split; [apply log_closed |]. split.
        { change (stopped (flat_map frameEvents (delivered E fuel 0)
                           ++ [EvConnClose; EvBodyClose]) = []).
          rewrite stopped_app, Hst. reflexivity. }
        split; [apply lookup_insert_eq |]. split; [| intros H0; now elim H0].
        intros _.
        now exists ([EvPrintln (VString url); EvDial url;
                     EvWriteMessage TextMessage data]
                    ++ flat_map frameEvents (delivered E fuel 0)).
      * split; [intros r w' H; discriminate |].
        intros w' H. inversion H; subst. split; [reflexivity |].
        eexists. split; [reflexivity |]. split.
        { change (stopped (flat_map frameEvents (delivered E fuel 0)) = []).
          exact Hst. }
        destruct (Hnoclose (delivered E fuel 0)) as [H1 H2].
        split; intros H0;
          repeat (destruct H0 as [H0|H0]; [discriminate |]); auto.
Qed.

Lemma stream_relay_tears_down_on_return_witness :
  exists evs,
    log (worldOf (WebsocketByPortForward Scenario.streaming 10 "core" "status"
                    Scenario.payload emptyWorld))
    = log Scenario.streamReady ++ evs ++ [EvCloseStopCh (Some 0%nat)]
    /\ stopped evs = []
    /\ heap (worldOf (WebsocketByPortForward Scenario.streaming 10 "core"
                        "status" Scenario.payload emptyWorld)) !! 0%nat
       = Some (setStopCh chClosed Scenario.streamBound)
    /\ (Dial Scenario.streaming (makeWsEndpoint Scenario.streamBound "status")
        = None ->
        exists before, evs = before ++ [EvConnClose; EvBodyClose])
    /\ (Dial Scenario.streaming (makeWsEndpoint Scenario.streamBound "status")
        <> None ->
        ~ In EvConnClose evs /\ ~ In EvBodyClose evs).
Proof.
  exact (proj1 (stream_relay_tears_down_on_return Scenario.streaming 10
                  "core" "status" Scenario.payload
                  (RestConfig "https://10.0.0.1:6443")
                  (Clientset "https://10.0.0.1:6443") Scenario.corePod
                  emptyWorld Scenario.streamReady Scenario.streamBound
                  eq_refl eq_refl eq_refl eq_refl eq_refl eq_refl)
           _ _ eq_refl).
Defined.

(** X14: when [Init] fails, [WebsocketByPortForward] returns at once
    without calling [Stop]: the world is exactly as [Init] left it and the
    session's stop channel is still open, where [InvokeByPortForward] in
    the same situation closes it. *)
Theorem stream_relay_leaves_failed_session_unstopped :
  forall (E : Env) (fuel : nat) (pluginID method : string)
         (data : list Byte.byte) (verb : string) (config : restConfig)
         (client : clientset) (app : AppPod) (w w2 w3 : world) (err err' : error),
    GetKubeConfigClient E = inl (config, client) ->
    GetAppPod E client pluginID = inl app ->
    Phase app = PodRunning ->
    NewForConfig E config = None ->
    Init E (Some (next w))
      (allocated (newSession config (Namespace app) (PodName app)
                    "127.0.0.1" 0 (AppPort app) false) w)
    = Returns (Some err) w2 ->
    Init E (Some (next w))
      (allocated (newSession config (Namespace app) (PodName app)
                    "127.0.0.1" 0 (HTTPPort app) false) w)
    = Returns (Some err') w3 ->
    WebsocketByPortForward E fuel pluginID method data w = Returns ("", None) w2
    /\ (exists s, heap w2 !! next w = Some s /\ StopCh s = chOpen)
    /\ (exists w' s evs,
          InvokeByPortForward E pluginID method data verb w
          = Returns ("", None) w'
          /\ heap w' !! next w = Some s /\ StopCh s = chClosed
          /\ log w' = log w3 ++ evs /\ stopped evs = [Some (next w)]).
Proof.
  intros E fuel pluginID method data verb config client app w w2 w3 err err'
    Hkube Hpod Hphase Hclient HI HI'.
  split; [| split].
  - apply (WebsocketByPortForward_Init_failed E pluginID method data config
             client app w Hkube Hpod Hphase Hclient fuel err w2 HI).
  - destruct (Init_returns E _ w2 (next w) _ HI)
      as (s & s2 & evs & Hs & Hh & Hst & _).
    exists s2. split; [rewrite Hh; apply lookup_insert_eq |].
    rewrite Hst. simpl in Hs. rewrite lookup_insert_eq in Hs.
    now inversion Hs.
  - destruct (InvokeByPortForward_Init_failed E pluginID method data verb
                config client app w Hkube Hpod Hclient err' w3 HI')
      as (s3 & Hs3 & Hrun).
    rewrite Hrun. eexists. exists (setStopCh chClosed s3).
    exists [EvCloseStopCh (Some (next w))].
    split; [reflexivity |]. split; [apply lookup_insert_eq |].
    repeat split.
Qed.

Lemma stream_relay_leaves_failed_session_unstopped_witness :
  let E := Scenario.cluster None Scenario.dialFailed (inl Scenario.payload)
             Scenario.echo in
  let w2 := logged [EvForwardPorts ["127.0.0.1"] ["0:6789"]]
              (allocated Scenario.streamSession emptyWorld) in
  let w3 := logged [EvForwardPorts ["127.0.0.1"] ["0:3500"]] Scenario.fresh in
  WebsocketByPortForward E 5 "core" "status" Scenario.payload emptyWorld
  = Returns ("", None) w2
  /\ (exists s, heap w2 !! 0%nat = Some s /\ StopCh s = chOpen)
  /\ (exists w' s evs,
        InvokeByPortForward E "core" "status" Scenario.payload "GET" emptyWorld
        = Returns ("", None) w'
        /\ heap w' !! 0%nat = Some s /\ StopCh s = chClosed
        /\ log w' = log w3 ++ evs /\ stopped evs = [Some 0%nat]).
Proof.
  exact (stream_relay_leaves_failed_session_unstopped
           (Scenario.cluster None Scenario.dialFailed (inl Scenario.payload)
              Scenario.echo) 5 "core" "status" Scenario.payload "GET"
           (RestConfig "https://10.0.0.1:6443")
           (Clientset "https://10.0.0.1:6443") Scenario.corePod emptyWorld
           _ _ _ _ eq_refl eq_refl eq_refl eq_refl eq_refl eq_refl).
Defined.

(** ** The direct relay *)

(** X15: [Invoke] returns a nil error exactly when the client, the
    resolution, the request and the raw read all succeed, and the string is
    then the body; a failing client or resolution is returned as it is, a
    failing request under "error get request" and a failing read under
    "error get raw". *)
Theorem Invoke_succeeds_iff_every_step_does :
  forall (E : Env) (pluginID method : string) (data : list Byte.byte)
         (verb : string),
    (snd (Invoke E pluginID method data verb) = None
     <-> exists client app rb,
           Client E = inl client
           /\ GetAppPod E client pluginID = inl app
           /\ AppRequest E app verb method data = None
           /\ Raw E app verb method data = inl rb
           /\ fst (Invoke E pluginID method data verb) = string_of_list_byte rb)
    /\ (forall err,
          Client E = inr err ->
          Invoke E pluginID method data verb = ("", Some err))
    /\ (forall client err,
          Client E = inl client ->
          GetAppPod E client pluginID = inr err ->
          Invoke E pluginID method data verb = ("", Some err))
    /\ (forall client app err,
          Client E = inl client ->
          GetAppPod E client pluginID = inl app ->
          AppRequest E app verb method data = Some err ->
          Invoke E pluginID method data verb
          = ("", Some (wrapError ("error get request: " +:+ Error err) err)))
    /\ (forall client app err,
          Client E = inl client ->
          GetAppPod E client pluginID = inl app ->
          AppRequest E app verb method data = None ->
          Raw E app verb method data = inr err ->
          Invoke E pluginID method data verb
          = ("", Some (wrapError ("error get raw: " +:+ Error err) err))).
Proof.
  intros E pluginID method data verb.
  split; [| split; [| split; [| split]]].
  - unfold Invoke, invoke. split.
    + destruct (Client E) as [client|e] eqn:Hc; [| discriminate].
      destruct (GetAppPod E client pluginID) as [app|e] eqn:Hp;
        [| discriminate].
      destruct (AppRequest E app verb method data) as [e|] eqn:Hreq;
        [discriminate |].
      destruct (Raw E app verb method data) as [rb|e] eqn:Hraw;
        [| discriminate].
      intros _. exists client, app, rb.
      split; [first [reflexivity | exact Hc] |].
      split; [first [reflexivity | exact Hp] |].
      split; [first [reflexivity | exact Hreq] |].
      split; [first [reflexivity | exact Hraw] |].
      destruct rb as [|b rb]; [reflexivity |]. now rewrite len_pos_cons.
    + intros (client & app & rb & Hc & Hp & Hreq & Hraw & _).
      rewrite Hc, Hp, Hreq, Hraw. now destruct (0 <? len rb).
  - intros err Hc. unfold Invoke. now rewrite Hc.
  - intros client err Hc Hp. unfold Invoke. now rewrite Hc, Hp.
  - intros client app err Hc Hp Hreq. unfold Invoke, invoke.
    rewrite Hc, Hp, Hreq. now labelled "error get request: " err.
  - intros client app err Hc Hp Hreq Hraw. unfold Invoke, invoke.
    rewrite Hc, Hp, Hreq, Hraw. now labelled "error get raw: " err.
Qed.

Lemma Invoke_succeeds_iff_every_step_does_witness :
  snd (Invoke Scenario.healthy "core" "status" [] "GET") = None
  /\ Invoke (Fixture.failing Scenario.healthy Fixture.AtClient Fixture.boom)
       "core" "status" [] "GET" = ("", Some Fixture.boom)
  /\ Invoke Scenario.healthy "ghost" "status" [] "GET"
     = ("", Some (errorString "ResolutionError: ghost"))
  /\ Invoke (Fixture.failing Scenario.healthy Fixture.AtAppRequest Fixture.boom)
       "core" "status" [] "GET"
     = ("", Some (wrapError ("error get request: " +:+ Error Fixture.boom)
                    Fixture.boom))
  /\ Invoke (Fixture.failing Scenario.healthy Fixture.AtRaw Fixture.boom)
       "core" "status" [] "GET"
     = ("", Some (wrapError ("error get raw: " +:+ Error Fixture.boom)
                    Fixture.boom)).
Proof.
  split.
  { apply (proj1 (Invoke_succeeds_iff_every_step_does Scenario.healthy
                    "core" "status" [] "GET")).
    exists (Clientset "https://10.0.0.1:6443"), Scenario.corePod,
      Scenario.payload.
    repeat split; reflexivity. }
  split.
  { exact (proj1 (proj2 (Invoke_succeeds_iff_every_step_does
             (Fixture.failing Scenario.healthy Fixture.AtClient Fixture.boom)
             "core" "status" [] "GET")) Fixture.boom eq_refl). }
  split.
  { exact (proj1 (proj2 (proj2 (Invoke_succeeds_iff_every_step_does
             Scenario.healthy "ghost" "status" [] "GET")))
             (Clientset "https://10.0.0.1:6443") _ eq_refl eq_refl). }
  split.
  { exact (proj1 (proj2 (proj2 (proj2 (Invoke_succeeds_iff_every_step_does
             (Fixture.failing Scenario.healthy Fixture.AtAppRequest Fixture.boom)
             "core" "status" [] "GET"))))
             (Clientset "https://10.0.0.1:6443") Scenario.corePod Fixture.boom
             eq_refl eq_refl eq_refl). }
  exact (proj2 (proj2 (proj2 (proj2 (Invoke_succeeds_iff_every_step_does
           (Fixture.failing Scenario.healthy Fixture.AtRaw Fixture.boom)
           "core" "status" [] "GET"))))
           (Clientset "https://10.0.0.1:6443") Scenario.corePod Fixture.boom
           eq_refl eq_refl eq_refl eq_refl).
Defined.

(** ** Failures before a session exists *)

(** X16: when the cluster configuration cannot be loaded, every entry point
    of the package returns the cause under "get kube config error" and does
    nothing else: no session is made and nothing is logged. *)
Theorem kube_config_failure_ends_every_entry_point :
  forall (E : Env) (err : error) (w : world),
    GetKubeConfigClient E = inr err ->
    exists e,
      Error e = "get kube config error: " +:+ Error err
      /\ Unwrap e = Some err
      /\ (forall pluginID method data verb,
            InvokeByPortForward E pluginID method data verb w
            = Returns ("", Some e) w)
      /\ (forall fuel pluginID method data,
            WebsocketByPortForward E fuel pluginID method data w
            = Returns ("", Some e) w)
      /\ (forall pluginID, getPortforward E pluginID w = Returns (None, Some e) w)
      /\ (forall appName options,
            GetPortforward E appName options w = Returns (None, Some e) w)
      /\ (forall name namespace port,
            GetPodPortForward E name namespace port w
            = Returns (None, Some e) w).
Proof.
  intros E err w H.
  exists (wrapError ("get kube config error: " +:+ Error err) err).
  split; [reflexivity |]. split; [reflexivity |].
  assert (Hget : forall pluginID,
             getPortforward E pluginID w
             = Returns (None, Some (wrapError ("get kube config error: "
                                               +:+ Error err) err)) w).
  { intros pluginID. unfold getPortforward. rewrite H.
    now labelled "get kube config error: " err. }
  split; [| split; [| split; [| split]]].
  - intros pluginID method data verb. unfold InvokeByPortForward. rewrite H.
    now labelled "get kube config error: " err.
  - intros fuel pluginID method data. unfold WebsocketByPortForward, bind.
    now rewrite Hget.
  - exact Hget.
  - intros appName options. unfold GetPortforward. rewrite H.
    now labelled "get kube config error: " err.
  - intros name namespace port. unfold GetPodPortForward. rewrite H.
    now labelled "get kube config error: " err.
Qed.

Lemma kube_config_failure_ends_every_entry_point_witness :
  exists e,
    Error e = "get kube config error: " +:+ Error Fixture.boom
    /\ Unwrap e = Some Fixture.boom
    /\ (forall pluginID method data verb,
          InvokeByPortForward
            (Fixture.failing Scenario.healthy Fixture.AtKubeConfig Fixture.boom)
            pluginID method data verb Fixture.busy
          = Returns ("", Some e) Fixture.busy)
    /\ (forall fuel pluginID method data,
          WebsocketByPortForward
            (Fixture.failing Scenario.healthy Fixture.AtKubeConfig Fixture.boom)
            fuel pluginID method data Fixture.busy
          = Returns ("", Some e) Fixture.busy)
    /\ (forall pluginID,
          getPortforward
            (Fixture.failing Scenario.healthy Fixture.AtKubeConfig Fixture.boom)
            pluginID Fixture.busy
          = Returns (None, Some e) Fixture.busy)
    /\ (forall appName options,
          GetPortforward
            (Fixture.failing Scenario.healthy Fixture.AtKubeConfig Fixture.boom)
            appName options Fixture.busy
          = Returns (None, Some e) Fixture.busy)
    /\ (forall name namespace port,
          GetPodPortForward
            (Fixture.failing Scenario.healthy Fixture.AtKubeConfig Fixture.boom)
            name namespace port Fixture.busy
          = Returns (None, Some e) Fixture.busy).
Proof.
  exact (kube_config_failure_ends_every_entry_point
           (Fixture.failing Scenario.healthy Fixture.AtKubeConfig Fixture.boom)
           Fixture.boom Fixture.busy eq_refl).
Defined.

(** X17: when no typed client can be built from the configuration,
    [NewPortForward] makes no session and returns the cause under
    "error get k8s client".  [InvokeByPortForward], [getPortforward] and
    [WebsocketByPortForward] pass that error on as it is, while
    [GetPortforward] and [GetPodPortForward] wrap it once more under
    "new portforward failed"; the options of [GetPortforward] do not run. *)
Theorem client_failure_is_wrapped_once_or_twice :
  forall (E : Env) (pluginID : string) (config : restConfig)
         (client : clientset) (app : AppPod) (w : world) (err : error),
    GetKubeConfigClient E = inl (config, client) ->
    GetAppPod E client pluginID = inl app ->
    NewForConfig E config = Some err ->
    let e1 := wrapError ("error get k8s client: " +:+ Error err) err in
    let e2 := wrapError ("new portforward failed: " +:+ Error e1) e1 in
    Error e2 = "new portforward failed: error get k8s client: " +:+ Error err
    /\ (forall namespace podName host localPort remotePort emitLogs,
          NewPortForward E config namespace podName host localPort remotePort
            emitLogs w
          = Returns (None, Some e1) w)
    /\ (forall method data verb,
          InvokeByPortForward E pluginID method data verb w
          = Returns ("", Some e1) w)
    /\ (Phase app = PodRunning ->
        getPortforward E pluginID w = Returns (None, Some e1) w
        /\ forall fuel method data,
             WebsocketByPortForward E fuel pluginID method data w
             = Returns ("", Some e1) w)
    /\ (forall options,
          GetPortforward E pluginID options w = Returns (None, Some e2) w)
    /\ (forall name namespace port,
          GetPodPortForward E name namespace port w
          = Returns (None, Some e2) w).
Proof.
  intros E pluginID config client app w err Hkube Hpod Hclient e1 e2.
  assert (Hnew : forall namespace podName host localPort remotePort emitLogs,
             NewPortForward E config namespace podName host localPort
               remotePort emitLogs w
             = Returns (None, Some e1) w).
  { intros. rewrite (NewPortForward_fails E _ _ _ _ _ _ _ _ err Hclient).
    now labelled "error get k8s client: " err. }
  split; [| split; [exact Hnew | split; [| split; [| split]]]].
  - reflexivity.
  - intros method data verb. unfold InvokeByPortForward.
    rewrite Hkube, Hpod. unfold bind. now rewrite Hnew.
  - intros Hphase.
    assert (Hget : getPortforward E pluginID w = Returns (None, Some e1) w).
    { unfold getPortforward. rewrite Hkube, Hpod, Hphase, String.eqb_refl.
      change (negb true) with false. cbv iota. apply Hnew. }
    split; [exact Hget |]. intros fuel method data.
    unfold WebsocketByPortForward, bind. now rewrite Hget.
  - intros options. unfold GetPortforward. rewrite Hkube, Hpod. unfold bind.
    rewrite Hnew. cbv beta iota. now labelled "new portforward failed: " e1.
  - intros name namespace port. unfold GetPodPortForward. rewrite Hkube.
    unfold bind. rewrite Hnew. cbv beta iota.
    now labelled "new portforward failed: " e1.
Qed.

Lemma client_failure_is_wrapped_once_or_twice_witness :
  let E := Fixture.failing Scenario.healthy Fixture.AtNewForConfig Fixture.boom in
  let e1 := wrapError ("error get k8s client: " +:+ Error Fixture.boom)
              Fixture.boom in
  let e2 := wrapError ("new portforward failed: " +:+ Error e1) e1 in
  Error e2 = "new portforward failed: error get k8s client: boom"
  /\ InvokeByPortForward E "core" "status" [] "GET" emptyWorld
     = Returns ("", Some e1) emptyWorld
  /\ GetPortforward E "core" [WithAppPort] emptyWorld
     = Returns (None, Some e2) emptyWorld.
Proof.
  pose proof (client_failure_is_wrapped_once_or_twice
                (Fixture.failing Scenario.healthy Fixture.AtNewForConfig
                   Fixture.boom) "core"
                (RestConfig "https://10.0.0.1:6443")
                (Clientset "https://10.0.0.1:6443") Scenario.corePod emptyWorld
                Fixture.boom eq_refl eq_refl eq_refl)
    as (H1 & _ & H3 & _ & H5 & _).
  split; [exact H1 |]. split; [apply H3 | apply H5].
Defined.

(** ** The command user show *)

(** X18: [user show] runs only with exactly two positional arguments.  With
    any other number, the documented single [<user-id>] included, it prints
    its two warnings and exits with status 1 without looking anything up.
    With two, only the first is used: the second does not change what the
    command does, and the index on [args] never panics. *)
Theorem user_show_needs_two_arguments :
  forall (data : Type) (L : UserShow.Lookup data) (tenant : string),
    (forall args,
        length args <> 2%nat ->
        UserShow.Run L tenant args
        = ([UserShow.WarningStatusEvent "Please specify the user id";
            UserShow.WarningStatusEvent
              "For example, tkeel user show <user-id> -t <tenant-id>"],
           UserShow.Exit 1))
    /\ (forall (L' : UserShow.Lookup data) tenant' args,
          length args <> 2%nat ->
          UserShow.Run L tenant args = UserShow.Run L' tenant' args)
    /\ (forall userID x y,
          UserShow.Run L tenant [userID; x] = UserShow.Run L tenant [userID; y])
    /\ (forall args msg, snd (UserShow.Run L tenant args) <> UserShow.Panic msg).
Proof.
  intros data L tenant.
  assert (Hgate : forall (L0 : UserShow.Lookup data) t args,
             length args <> 2%nat ->
             UserShow.Run L0 t args
             = ([UserShow.WarningStatusEvent "Please specify the user id";
                 UserShow.WarningStatusEvent
                   "For example, tkeel user show <user-id> -t <tenant-id>"],
                UserShow.Exit 1)).
  { intros L0 t args Hlen. unfold UserShow.Run.
    assert (H : (len args =? 2) = false)
      by (apply Z.eqb_neq; unfold len; lia).
    now rewrite H. }
  split; [apply Hgate |]. split; [| split].
  - intros L' tenant' args Hlen. now rewrite !Hgate.
  - intros userID x y. reflexivity.
  - intros args msg. unfold UserShow.Run.
    destruct (len args =? 2) eqn:Hlen; simpl; [| discriminate].
    destruct args as [|userID rest]; [discriminate |].
    destruct (UserShow.TenantUserInfo L tenant userID) as [d|e];
      [| discriminate].
    destruct (UserShow.MarshalString L d); discriminate.
Qed.

Lemma user_show_needs_two_arguments_witness :
  UserShow.Run UserShow.directory "acme" ["u-42"]
  = ([UserShow.WarningStatusEvent "Please specify the user id";
      UserShow.WarningStatusEvent
        "For example, tkeel user show <user-id> -t <tenant-id>"],
     UserShow.Exit 1)
  /\ UserShow.Run UserShow.directory "acme" ["u-42"; "-"; "acme"]
     = UserShow.Run UserShow.unreachable "" ["u-42"; "-"; "acme"].
Proof.
  split.
  - refine (proj1 (user_show_needs_two_arguments _ UserShow.directory "acme")
              ["u-42"] _).
    simpl. lia.
  - refine (proj1 (proj2 (user_show_needs_two_arguments _ UserShow.directory
                            "acme"))
              UserShow.unreachable "" ["u-42"; "-"; "acme"] _).
    simpl. lia.
Defined.

(** X19: with two arguments, [user show] looks up the first one under the
    tenant.  A failing lookup and a failing CSV rendering both end in
    exactly one failure line carrying the error's message and exit status
    1, with no table printed; otherwise the rendered table is printed once
    and the command returns normally. *)
Theorem user_show_reports_lookup_and_rendering :
  forall (data : Type) (L : UserShow.Lookup data) (tenant userID other : string),
    (forall err,
        UserShow.TenantUserInfo L tenant userID = inr err ->
        UserShow.Run L tenant [userID; other]
        = ([UserShow.FailureStatusEvent (Error err)], UserShow.Exit 1))
    /\ (forall d err,
          UserShow.TenantUserInfo L tenant userID = inl d ->
          UserShow.MarshalString L d = inr err ->
          UserShow.Run L tenant [userID; other]
          = ([UserShow.FailureStatusEvent (Error err)], UserShow.Exit 1))
    /\ (forall d table,
          UserShow.TenantUserInfo L tenant userID = inl d ->
          UserShow.MarshalString L d = inl table ->
          UserShow.Run L tenant [userID; other]
          = ([UserShow.PrintTable table], UserShow.Return))
    /\ (snd (UserShow.Run L tenant [userID; other]) = UserShow.Return
        <-> exists d table,
              UserShow.TenantUserInfo L tenant userID = inl d
              /\ UserShow.MarshalString L d = inl table).
Proof.
  intros data L tenant userID other. unfold UserShow.Run. simpl.
  split; [| split; [| split]].
  - intros err H. now rewrite H.
  - intros d err H1 H2. now rewrite H1, H2.
  - intros d table H1 H2. now rewrite H1, H2.
  - destruct (UserShow.TenantUserInfo L tenant userID) as [d|e].
    + destruct (UserShow.MarshalString L d) as [table|e] eqn:Hm; simpl.
      * split; [intros _; now exists d, table | reflexivity].
      * split; [discriminate |]. intros (d' & table & Hd & Ht).
        inversion Hd; subst. congruence.
    + simpl. split; [discriminate |]. intros (d & table & Hd & _).
      discriminate.
Qed.

Lemma user_show_reports_lookup_and_rendering_witness :
  UserShow.Run UserShow.directory "acme" ["u-7"; "x"]
  = ([UserShow.FailureStatusEvent "user u-7 not found"], UserShow.Exit 1)
  /\ UserShow.Run UserShow.directory "acme" ["u-42"; "x"]
     = ([UserShow.PrintTable "id,nameu-42,alice"], UserShow.Return).
Proof.
  split.
  - exact (proj1 (user_show_reports_lookup_and_rendering _ UserShow.directory
                    "acme" "u-7" "x")
             (errorString "user u-7 not found") eq_refl).
  - exact (proj1 (proj2 (proj2 (user_show_reports_lookup_and_rendering _
                    UserShow.directory "acme" "u-42" "x")))
             ("u-42", "alice") _ eq_refl eq_refl).
Defined.

(** ** Which port each relay tunnels to *)

Lemma bind_log_extends {A B} (p : ptr) (m : M A) (k : A -> M B) (w : world) :
  (forall a, touchesOnly p (k a)) ->
  next (worldOf (bind m k w)) = next (worldOf (m w))
  /\ exists evs, log (worldOf (bind m k w)) = log (worldOf (m w)) ++ evs.
Proof.
  intros Hk. unfold bind.
  destruct (m w) as [a w1|msg w1|w1|w1]; simpl;
    try (split; [reflexivity | exists []; now rewrite app_nil_r]).
  destruct (Hk a w1) as (Hn & _ & Hl). split; assumption.
Qed.

Lemma forwarded_app (l1 l2 : list event) :
  forwarded (l1 ++ l2) = forwarded l1 ++ forwarded l2.
Proof. apply omap_app. Qed.

(** X20: for a pod that resolves, whatever its phase, [InvokeByPortForward]
    allocates a session and, once the forwarder is built, starts it on
    127.0.0.1 for the port pair ["0:<HTTPPort>"]; for a running pod
    [WebsocketByPortForward] does the same for ["0:<AppPort>"].  Local
    port 0 leaves the choice of the port to the forwarder. *)
Theorem relays_tunnel_to_their_port :
  forall (E : Env) (pluginID method : string) (data : list Byte.byte)
         (verb : string) (fuel : nat) (config : restConfig)
         (client : clientset) (app : AppPod) (w : world),
    GetKubeConfigClient E = inl (config, client) ->
    GetAppPod E client pluginID = inl app ->
    NewForConfig E config = None ->
    (reachesSelect E (newSession config (Namespace app) (PodName app)
                        "127.0.0.1" 0 (HTTPPort app) false) ->
     let w' := worldOf (InvokeByPortForward E pluginID method data verb w) in
     next w' = S (next w)
     /\ exists evs,
          log w' = log w ++ evs
          /\ In (["127.0.0.1"], ["0:" +:+ itoa (HTTPPort app)]) (forwarded evs))
    /\ (Phase app = PodRunning ->
        reachesSelect E (newSession config (Namespace app) (PodName app)
                           "127.0.0.1" 0 (AppPort app) false) ->
        let w' := worldOf (WebsocketByPortForward E fuel pluginID method data w) in
        next w' = S (next w)
        /\ exists evs,
             log w' = log w ++ evs
             /\ In (["127.0.0.1"], ["0:" +:+ itoa (AppPort app)]) (forwarded evs)).
Proof.
  intros E pluginID method data verb fuel config client app w
    Hkube Hpod Hclient.
  assert (Hstart : forall port B (k : option error -> M B),
             (forall r, touchesOnly (Some (next w)) (k r)) ->
             reachesSelect E (newSession config (Namespace app) (PodName app)
                                "127.0.0.1" 0 port false) ->
             forall w',
             w' = worldOf (bind (Init E (Some (next w))) k
                     (allocated (newSession config (Namespace app)
                                   (PodName app) "127.0.0.1" 0 port false)
                        w)) ->
             next w' = S (next w)
             /\ exists evs,
                  log w' = log w ++ evs
                  /\ In (["127.0.0.1"], ["0:" +:+ itoa port]) (forwarded evs)).
  { intros port B k Hk Hsel w' Hw'.
    set (s0 := newSession config (Namespace app) (PodName app)
                 "127.0.0.1" 0 port false) in *.
    destruct (bind_log_extends (Some (next w)) (Init E (Some (next w))) k
                (allocated s0 w) Hk) as (Hn & evs2 & Hl).
    destruct (touches_Init E (Some (next w)) (allocated s0 w)) as (Hn1 & _).
    destruct (Init_starts_forwarder_on_stored_ports E (allocated s0 w)
                (next w) s0 (lookup_insert_eq _ _ _))
      as (evs1 & Hl1 & Hfw & _).
    split; [rewrite Hw', Hn, Hn1; reflexivity |].
    exists (evs1 ++ evs2). split.
    - rewrite Hw', Hl, Hl1. simpl. now rewrite app_assoc.
    - rewrite forwarded_app, (Hfw Hsel). now left. }
  split.
  - intros Hsel w'.
    eapply (Hstart (HTTPPort app));
      [| exact Hsel
       | unfold w', InvokeByPortForward; rewrite Hkube, Hpod;
         unfold bind at 1; rewrite (NewPortForward_ok E) by exact Hclient;
         cbv beta iota; reflexivity].
    intros r. cbv beta. touches_all.
  - intros Hphase Hsel w'.
    eapply (Hstart (AppPort app));
      [| exact Hsel
       | unfold w', WebsocketByPortForward; unfold bind at 1;
         rewrite (getPortforward_running E pluginID config client app w
                    Hkube Hpod Hphase Hclient);
         cbv beta iota; reflexivity].
    intros r. cbv beta. touches_all.
Qed.

Lemma relays_tunnel_to_their_port_witness :
  (let w' := worldOf (InvokeByPortForward Scenario.healthy "rudder" "status"
                        [] "GET" emptyWorld) in
   next w' = 1%nat
   /\ exists evs,
        log w' = [] ++ evs
        /\ In (["127.0.0.1"], ["0:" +:+ itoa 3500]) (forwarded evs))
  /\ (let w' := worldOf (WebsocketByPortForward Scenario.streaming 10 "core"
                           "status" Scenario.payload emptyWorld) in
      next w' = 1%nat
      /\ exists evs,
           log w' = [] ++ evs
           /\ In (["127.0.0.1"], ["0:" +:+ itoa 6789]) (forwarded evs)).
Proof.
  split.
  - exact (proj1 (relays_tunnel_to_their_port Scenario.healthy "rudder"
                    "status" [] "GET" 10
                    (RestConfig "https://10.0.0.1:6443")
                    (Clientset "https://10.0.0.1:6443") Scenario.pendingPod
                    emptyWorld eq_refl eq_refl eq_refl)
             (conj eq_refl eq_refl)).
  - exact (proj2 (relays_tunnel_to_their_port Scenario.streaming "core"
                    "status" Scenario.payload "GET" 10
                    (RestConfig "https://10.0.0.1:6443")
                    (Clientset "https://10.0.0.1:6443") Scenario.corePod
                    emptyWorld eq_refl eq_refl eq_refl)
             eq_refl (conj eq_refl eq_refl)).
Defined.

(** X21: [GetPodPortForward] makes the session for the pod it is given,
    without resolving anything: the request goes to that namespace and pod
    name, the remote port is the given one, the local port is 0 on
    127.0.0.1, and the result does not depend on the resolver. *)
Theorem GetPodPortForward_targets_named_pod :
  forall (E : Env) (name namespace : string) (port : Z)
         (config : restConfig) (client : clientset) (w : world),
    GetKubeConfigClient E = inl (config, client) ->
    NewForConfig E config = None ->
    (exists s,
        GetPodPortForward E name namespace port w
        = Returns (Some (next w), None) (allocated s w)
        /\ urlNamespace (URL s) = namespace /\ urlName (URL s) = name
        /\ urlResource (URL s) = "pods"
        /\ urlSubResource (URL s) = "portforward"
        /\ Method s = "POST"
        /\ RemotePort s = port /\ LocalPort s = 0 /\ Host s = "127.0.0.1"
        /\ StopCh s = chOpen /\ ReadyCh s = chOpen /\ App s = None)
    /\ (forall E',
          GetKubeConfigClient E' = GetKubeConfigClient E ->
          NewForConfig E' = NewForConfig E ->
          GetPodPortForward E' name namespace port w
          = GetPodPortForward E name namespace port w).
Proof.
  intros E name namespace port config client w Hkube Hclient. split.
  - eexists. split.
    + unfold GetPodPortForward. rewrite Hkube. unfold bind.
      rewrite (NewPortForward_ok E) by exact Hclient. reflexivity.
    + repeat split.
  - intros E' Hk Hc. unfold GetPodPortForward, NewPortForward.
    now rewrite Hk, Hc.
Qed.

Lemma GetPodPortForward_targets_named_pod_witness :
  exists s,
    GetPodPortForward Scenario.healthy "keel-66c4f" "tkeel-system" 31234
      emptyWorld
    = Returns (Some 0%nat, None) (allocated s emptyWorld)
    /\ urlNamespace (URL s) = "tkeel-system" /\ urlName (URL s) = "keel-66c4f"
    /\ urlResource (URL s) = "pods"
    /\ urlSubResource (URL s) = "portforward"
    /\ Method s = "POST"
    /\ RemotePort s = 31234 /\ LocalPort s = 0 /\ Host s = "127.0.0.1"
    /\ StopCh s = chOpen /\ ReadyCh s = chOpen /\ App s = None.
Proof.
  exact (proj1 (GetPodPortForward_targets_named_pod Scenario.healthy
                  "keel-66c4f" "tkeel-system" 31234
                  (RestConfig "https://10.0.0.1:6443")
                  (Clientset "https://10.0.0.1:6443") emptyWorld
                  eq_refl eq_refl)).
Defined.
